(** * TAIC user-interrupt delivery: driver registration and trap-boundary hooks

    Shallow embedding of
      - drivers/irqchip/irq-riscv-taic.c  (controller registration, the
        publish / release register writes), and
      - arch/riscv/kernel/uintr.c         (uintr_enable, uintr_set, uintr_clear).

    Unsigned 64-bit quantities are integers in [0, 2^64) with the wrap-around
    written out; the per-CPU handler tables, the kzalloc heap and the device
    registers are finite maps; every hardware access is also appended to a
    trace so that the order of accesses can be stated. *)

From Stdlib Require Import ZArith List Bool Lia.
From stdpp Require Import base option numbers list functions gmap fin_maps.

Local Open Scope Z_scope.

(** ** Constants that come from kernel headers outside this source tree *)

(** errno codes (uapi/asm-generic/errno-base.h), the software-interrupt cause
    numbers and the user-software-interrupt mask (asm/csr.h).  Their values are
    not part of the sources at hand, so the development is parametric in them;
    only the sign of the errno codes is used. *)
Class KernelHeaders := {
  EINVAL : Z;
  ENOMEM : Z;
  EIO : Z;
  IRQ_U_SOFT : Z;
  IRQ_S_SOFT : Z;
  IE_USIE : Z;
  EINVAL_pos : 0 < EINVAL;
  ENOMEM_pos : 0 < ENOMEM;
  EIO_pos : 0 < EIO;
}.

(** The values Linux on RISC-V (with the N extension) uses. *)
#[export, refine] Instance linux_riscv : KernelHeaders := {|
  EINVAL := 22;
  ENOMEM := 12;
  EIO := 5;
  IRQ_U_SOFT := 0;
  IRQ_S_SOFT := 1;
  IE_USIE := 1;
|}.
Proof. all: reflexivity. Defined.

(** Constants of irq-riscv-taic.c, lines 16-19. *)
Definition DEFAULT_GQ_NUM : Z := 4.
Definition DEFAULT_LQ_NUM : Z := 8.
Definition LQ_OFFSET : Z := 0x1000.
Definition LQ_SIZE : Z := 0x1000.

(** ** 64-bit unsigned arithmetic *)

Definition u64_mod : Z := 2 ^ 64.
Definition wrap64 (x : Z) : Z := x mod u64_mod.
Definition u64_range (x : Z) : Prop := 0 ≤ x < u64_mod.
Definition u8_range (x : Z) : Prop := 0 ≤ x < 256.

(** [~x] on an unsigned long. *)
Definition not64 (x : Z) : Z := wrap64 (Z.lnot x).

(** [~0UL], the value published for "resident nowhere". *)
Definition NOWHERE : Z := not64 0.

(** Byte-granular arithmetic on a [void __iomem *]. *)
Definition ptr_add (p off : Z) : Z := wrap64 (p + off).

(** ** Data model *)

(** [struct taic_priv]; the spinlock is only initialised, never taken. *)
Record taic_priv := TaicPriv {
  smask : gset nat;
  umask : gset nat;
  regs : Z;
  start : Z;
  size : Z;
  lq_num : Z;
  gq_num : Z;
}.

(** [struct taic_handler]; [priv] is a pointer into the kzalloc heap,
    [None] being NULL. *)
Record taic_handler := TaicHandler {
  present : bool;
  priv : option nat;
}.

(** A zero-initialised per-CPU handler. *)
Definition handler_zero : taic_handler := TaicHandler false None.

(** The user-interrupt CSRs that uintr.c touches. *)
Inductive csr :=
| CSR_SIDELEG | CSR_UIE | CSR_UIP | CSR_UEPC | CSR_UTVEC | CSR_USCRATCH.

#[global] Instance csr_eq_dec : EqDecision csr.
Proof. solve_decision. Defined.

(** Every access to the hardware, in program order. *)
Inductive hw_event :=
| MmioWriteq (addr val : Z)
| CsrSet (hart : nat) (r : csr) (mask : Z)
| CsrClear (hart : nat) (r : csr) (mask : Z)
| CsrWrite (hart : nat) (r : csr) (val : Z)
| CsrRead (hart : nat) (r : csr) (val : Z).

(** Messages of pr_err / pr_warn / pr_info and WARN_ON. *)
Inductive log_msg :=
| WarnOn
| WarnGqNumDefault
| WarnLqNumDefault
| ErrParseParent (i : nat)
| WarnHartId (i : nat)
| WarnCpuId (i : nat)
| WarnHandlerPresent (i : nat)
| InfoAvailable (gq lq : Z).

(** Driver-side state: the two per-CPU tables, the heap holding the
    [taic_priv] objects, the live ioremap windows and the kernel log. *)
Record taic_state := TaicState {
  taic_shandlers : gmap nat taic_handler;
  taic_uhandlers : gmap nat taic_handler;
  kmem : gmap nat taic_priv;
  iomem : gset Z;
  dmesg : list log_msg;
}.

(** Hardware-side state: device registers by address, the CSR file of every
    hart, and the access trace. *)
Record hw_state := HwState {
  mmio : gmap Z Z;
  csrs : nat → csr → Z;
  hw_trace : list hw_event;
}.

(** [per_cpu_ptr] / [this_cpu_ptr] on a statically allocated, zeroed table. *)
Definition per_cpu_ptr (tbl : gmap nat taic_handler) (cpu : nat) : taic_handler :=
  default handler_zero (tbl !! cpu).

(** Dereferencing [handler->priv]; [None] is a fault. *)
Definition deref_priv (d : taic_state) (p : option nat) : option taic_priv :=
  q ← p; kmem d !! q.

(** ** Hardware primitives *)

(** Modelled from the spec: [writeq] of asm/io.h, which is not among the
    sources: one 64-bit store to a device register ("writes the core
    identifier there"). *)
Definition writeq (val addr : Z) (h : hw_state) : hw_state :=
  HwState (<[addr := val]> (mmio h)) (csrs h) (hw_trace h ++ [MmioWriteq addr val]).

Definition csr_update (hart : nat) (r : csr) (v : Z)
    (f : nat → csr → Z) : nat → csr → Z :=
  <[hart := <[r := v]> (f hart)]> f.

(** Modelled from the spec: the macro [csr_set] of asm/csr.h, which is not
    among the sources; it turns the bits of the mask on ("the delegation bit
    ... is unconditionally set"). *)
Definition csr_set (hart : nat) (r : csr) (mask : Z) (h : hw_state) : hw_state :=
  HwState (mmio h)
          (csr_update hart r (Z.lor (csrs h hart r) mask) (csrs h))
          (hw_trace h ++ [CsrSet hart r mask]).

(** Modelled from the spec: the macro [csr_clear] of asm/csr.h; it turns the
    bits of the mask off ("force the architectural user-interrupt-enable bit
    off and clear any pending user-interrupt flag"). *)
Definition csr_clear (hart : nat) (r : csr) (mask : Z) (h : hw_state) : hw_state :=
  HwState (mmio h)
          (csr_update hart r (Z.land (csrs h hart r) (not64 mask)) (csrs h))
          (hw_trace h ++ [CsrClear hart r mask]).

(** Modelled from the spec: the macro [csr_write] of asm/csr.h; it replaces
    the register ("restore the saved architectural registers ... into the
    processor"). *)
Definition csr_write (hart : nat) (r : csr) (v : Z) (h : hw_state) : hw_state :=
  HwState (mmio h) (csr_update hart r v (csrs h)) (hw_trace h ++ [CsrWrite hart r v]).

(** Modelled from the spec: the macro [csr_read] of asm/csr.h; it returns
    what the register holds ("any interrupt-pending bit already latched by the
    processor"). *)
Definition csr_read (hart : nat) (r : csr) (h : hw_state) : Z * hw_state :=
  (csrs h hart r,
   HwState (mmio h) (csrs h) (hw_trace h ++ [CsrRead hart r (csrs h hart r)])).

(** ** Receiver ownership protocol (irq-riscv-taic.c, lines 140-173) *)

Section Taic.
Context `{KernelHeaders}.

(** The slot number [(idx_high * lq_num + idx_low)] as the code computes it
    in [uint64_t]. *)
Definition ulq_slot (lq_num lq_idx : Z) : Z :=
  let idx_high := lq_idx ≫ 32 in
  let idx_low := Z.land lq_idx 0xffffffff in
  wrap64 (wrap64 (idx_high * lq_num) + idx_low).

(** The address [regs + LQ_OFFSET + slot * LQ_SIZE + 0x38]. *)
Definition ulq_cpuid_reg (base lq_num lq_idx : Z) : Z :=
  ptr_add (ptr_add (ptr_add base LQ_OFFSET)
                   (wrap64 (ulq_slot lq_num lq_idx * LQ_SIZE)))
          0x38.

(** The same register counted from the start of the register window. *)
Definition ulq_cpuid_offset (lq_num lq_idx : Z) : Z :=
  LQ_OFFSET + wrap64 (ulq_slot lq_num lq_idx * LQ_SIZE) + 0x38.

Definition taic_ulq_write_cpuid (d : taic_state) (cpu : nat)
    (lq_idx hartid : Z) (h : hw_state) : option (Z * hw_state) :=
  let handler := per_cpu_ptr (taic_uhandlers d) cpu in
  if negb (present handler) then Some (- EINVAL, h)
  else
    p ← deref_priv d (priv handler);
    let reg := ulq_cpuid_reg (regs p) (lq_num p) lq_idx in
    Some (0, writeq hartid reg h).

Definition taic_free_lq (d : taic_state) (cpu : nat)
    (lq_idx : Z) (h : hw_state) : option (Z * hw_state) :=
  let handler := per_cpu_ptr (taic_uhandlers d) cpu in
  if negb (present handler) then Some (- EINVAL, h)
  else
    p ← deref_priv d (priv handler);
    let reg := ptr_add (regs p) 0x8 in
    Some (0, writeq lq_idx reg h).

(** ** Receiver state of a thread (arch/riscv/kernel/uintr.c) *)

(** The two fields of [t->thread] that uintr.c uses. *)
Record thread_struct := ThreadStruct {
  is_uintr_enabled : bool;
  lq_idx : Z;
}.

(** The user-interrupt registers saved in [struct pt_regs]. *)
Record pt_regs := PtRegs {
  uie : Z;
  uepc : Z;
  utvec : Z;
  uscratch : Z;
  uip : Z;
}.

(** [SYSCALL_DEFINE1(uintr_enable, u64, lq_idx)], lines 23-32: the return
    value and the thread afterwards. *)
Definition uintr_enable (idx : Z) (t : thread_struct) : Z * thread_struct :=
  if is_uintr_enabled t then (0, t)
  else (0, ThreadStruct true idx).

(** [uintr_clear], lines 38-44, run by [cpu] for the thread [t].  The return
    value of the publish call is dropped, as in the source. *)
Definition uintr_clear (d : taic_state) (cpu : nat) (t : thread_struct)
    (h : hw_state) : option hw_state :=
  if negb (is_uintr_enabled t) then Some h
  else
    r ← taic_ulq_write_cpuid d cpu (lq_idx t) NOWHERE h;
    Some (snd r).

(** [uintr_set], lines 51-78. *)
Definition uintr_set (d : taic_state) (cpu : nat) (t : thread_struct)
    (rg : pt_regs) (h : hw_state) : option hw_state :=
  let h := csr_set cpu CSR_SIDELEG IE_USIE h in
  let hartid := Z.of_nat cpu in
  if negb (is_uintr_enabled t) then
    let h := csr_clear cpu CSR_UIE IE_USIE h in
    let h := csr_clear cpu CSR_UIP IE_USIE h in
    Some h
  else
    r ← taic_ulq_write_cpuid d cpu (lq_idx t) hartid h;
    let h := snd r in
    let h := csr_write cpu CSR_UIE (uie rg) h in
    let h := csr_write cpu CSR_UEPC (uepc rg) h in
    let h := csr_write cpu CSR_UTVEC (utvec rg) h in
    let h := csr_write cpu CSR_USCRATCH (uscratch rg) h in
    let (cur_uip, h) := csr_read cpu CSR_UIP h in
    Some (csr_write cpu CSR_UIP (Z.lor (uip rg) cur_uip) h).

(** ** Controller registration (irq-riscv-taic.c, lines 41-135) *)

(** What the device-tree and architecture helpers answer.  They live outside
    this source tree; registration is a function of their answers. *)
Record resource := Resource {
  res_start : Z;
  res_end : Z;
}.

Record of_phandle_args := OfPhandleArgs {
  np : nat;
  args0 : Z;
}.

Record device_node := DeviceNode {
  of_address_to_resource : option resource;
  of_read_gq_num : option Z;
  of_read_lq_num : option Z;
  of_irq_count : Z;
  of_irq_parse_one : nat → option of_phandle_args;
}.

Record platform := Platform {
  kzalloc_ok : bool;
  resource_size : resource → Z;
  ioremap : Z → Z → Z;
  riscv_of_parent_hartid : nat → Z * Z;
  riscv_hartid_to_cpuid : Z → Z;
}.

(** The privilege level a routing entry names. *)
Inductive level := ULevel | SLevel.

#[global] Instance level_eq_dec : EqDecision level.
Proof. solve_decision. Defined.

Definition handlers (lvl : level) (d : taic_state) : gmap nat taic_handler :=
  match lvl with
  | ULevel => taic_uhandlers d
  | SLevel => taic_shandlers d
  end.

Definition pr (m : log_msg) (d : taic_state) : taic_state :=
  TaicState (taic_shandlers d) (taic_uhandlers d) (kmem d) (iomem d) (dmesg d ++ [m]).

Definition kmem_update (f : gmap nat taic_priv → gmap nat taic_priv)
    (d : taic_state) : taic_state :=
  TaicState (taic_shandlers d) (taic_uhandlers d) (f (kmem d)) (iomem d) (dmesg d).

Definition iomem_update (f : gset Z → gset Z) (d : taic_state) : taic_state :=
  TaicState (taic_shandlers d) (taic_uhandlers d) (kmem d) (f (iomem d)) (dmesg d).

Definition handler_store (lvl : level) (cpu : nat) (hd : taic_handler)
    (d : taic_state) : taic_state :=
  match lvl with
  | ULevel => TaicState (taic_shandlers d) (<[cpu := hd]> (taic_uhandlers d))
                        (kmem d) (iomem d) (dmesg d)
  | SLevel => TaicState (<[cpu := hd]> (taic_shandlers d)) (taic_uhandlers d)
                        (kmem d) (iomem d) (dmesg d)
  end.

(** A store through the [priv] pointer [p]. *)
Definition priv_update (f : taic_priv → taic_priv) (p : nat)
    (d : taic_state) : taic_state :=
  kmem_update (alter f p) d.

Definition priv_zero : taic_priv := TaicPriv ∅ ∅ 0 0 0 0 0.

Definition set_window (s sz : Z) (q : taic_priv) : taic_priv :=
  TaicPriv (smask q) (umask q) (regs q) s sz (lq_num q) (gq_num q).

Definition set_regs (b : Z) (q : taic_priv) : taic_priv :=
  TaicPriv (smask q) (umask q) b (start q) (size q) (lq_num q) (gq_num q).

Definition set_gq_num (n : Z) (q : taic_priv) : taic_priv :=
  TaicPriv (smask q) (umask q) (regs q) (start q) (size q) (lq_num q) n.

Definition set_lq_num (n : Z) (q : taic_priv) : taic_priv :=
  TaicPriv (smask q) (umask q) (regs q) (start q) (size q) n (gq_num q).

(** [cpumask_set_cpu(cpu, &priv->umask)] or [&priv->smask]. *)
Definition cpumask_set_cpu (lvl : level) (cpu : nat) (q : taic_priv) : taic_priv :=
  match lvl with
  | ULevel => TaicPriv (smask q) ({[cpu]} ∪ umask q) (regs q) (start q) (size q)
                       (lq_num q) (gq_num q)
  | SLevel => TaicPriv ({[cpu]} ∪ smask q) (umask q) (regs q) (start q) (size q)
                       (lq_num q) (gq_num q)
  end.

(** Modelled from the spec: [kzalloc] of linux/slab.h, which is not among
    the sources: a fresh, zeroed object, or NULL ("allocated and fully
    populated during one-time platform discovery"). *)
Definition kzalloc (pf : platform) (d : taic_state) : option nat :=
  if kzalloc_ok pf then Some (fresh (dom (kmem d))) else None.

(** Modelled from the spec: [kfree] and [iounmap], which are not among the
    sources ("the instance and its mapped memory are released
    immediately"). *)
Definition kfree (p : nat) (d : taic_state) : taic_state :=
  kmem_update (delete p) d.

Definition iounmap (b : Z) (d : taic_state) : taic_state :=
  iomem_update (λ s, s ∖ {[b]}) d.

(** One turn of the loop over the routing entries, lines 85-125, for the
    instance at [p] and the entry number [i]. *)
Definition taic_init_context (pf : platform) (node : device_node) (p : nat)
    (d : taic_state) (i : nat) : taic_state :=
  match of_irq_parse_one node i with
  | None => pr (ErrParseParent i) d
  | Some parent =>
    if negb (args0 parent =? IRQ_U_SOFT) && negb (args0 parent =? IRQ_S_SOFT)
    then d
    else
      let (error, hartid) := riscv_of_parent_hartid pf (np parent) in
      if error <? 0 then pr (WarnHartId i) d
      else
        let cpu := riscv_hartid_to_cpuid pf hartid in
        if cpu <? 0 then pr (WarnCpuId i) d
        else
          let c := Z.to_nat cpu in
          let lvl := if args0 parent =? IRQ_U_SOFT then ULevel else SLevel in
          let d := priv_update (cpumask_set_cpu lvl c) p d in
          if present (per_cpu_ptr (handlers lvl d) c)
          then pr (WarnHandlerPresent i) d
          else handler_store lvl c (TaicHandler true (Some p)) d
  end.

(** The loop [for (i = 0; i < nr_contexts; i++)]. *)
Definition taic_init_contexts (pf : platform) (node : device_node) (p : nat)
    (ixs : list nat) (d : taic_state) : taic_state :=
  fold_left (taic_init_context pf node p) ixs d.

(** [__taic_init]: the status it returns and the driver state it leaves. *)
Definition __taic_init (pf : platform) (node : device_node)
    (d : taic_state) : Z * taic_state :=
  match kzalloc pf d with
  | None => (- ENOMEM, d)
  | Some p =>
    let d := kmem_update (<[p := priv_zero]>) d in
    match of_address_to_resource node with
    | None => (- EIO, kfree p d)
    | Some res =>
      let d := priv_update (set_window (res_start res) (resource_size pf res)) p d in
      let base := ioremap pf (res_start res) (resource_size pf res) in
      let d := priv_update (set_regs base) p d in
      if base =? 0 then (- EIO, kfree p (pr WarnOn d))
      else
        let d := iomem_update (λ s, {[base]} ∪ s) d in
        let (gq, d) :=
          match of_read_gq_num node with
          | Some n => (n, d)
          | None => (DEFAULT_GQ_NUM, pr WarnGqNumDefault d)
          end in
        let d := priv_update (set_gq_num gq) p d in
        let (lq, d) :=
          match of_read_lq_num node with
          | Some n => (n, d)
          | None => (DEFAULT_LQ_NUM, pr WarnLqNumDefault d)
          end in
        let d := priv_update (set_lq_num lq) p d in
        let nr_contexts := of_irq_count node in
        if nr_contexts =? 0 then
          (- EINVAL, kfree p (iounmap base (pr WarnOn d)))
        else
          let d := taic_init_contexts pf node p (seq 0 (Z.to_nat nr_contexts)) d in
          (0, pr (InfoAvailable gq lq) d)
    end
  end.

(** ** Trap boundaries: contexts moving in and out of user mode *)

(** An execution context: the thread, its saved registers, and the core on
    which it is resident in user mode ([None] while it is in the kernel). *)
Record context := Ctx {
  ctx_thread : thread_struct;
  ctx_regs : pt_regs;
  ctx_user : option nat;
}.

Record system := System {
  sys_taic : taic_state;
  sys_hw : hw_state;
  sys_ctx : nat → context;
}.

(** What can happen to the context [tid]: the enable system call; the
    trap-exit hook on [cpu], after which the context runs in user mode there;
    the trap-entry hook on [cpu] with the freshly saved registers, after which
    it is in the kernel. *)
Inductive event :=
| EvEnable (tid : nat) (idx : Z)
| EvSet (tid cpu : nat)
| EvClear (tid cpu : nat) (saved : pt_regs).

(** [None] when the hook faults. *)
Definition sys_step (s : system) (e : event) : option system :=
  match e with
  | EvEnable tid idx =>
    let c := sys_ctx s tid in
    let t := snd (uintr_enable idx (ctx_thread c)) in
    Some (System (sys_taic s) (sys_hw s)
                 (<[tid := Ctx t (ctx_regs c) (ctx_user c)]> (sys_ctx s)))
  | EvSet tid cpu =>
    let c := sys_ctx s tid in
    h ← uintr_set (sys_taic s) cpu (ctx_thread c) (ctx_regs c) (sys_hw s);
    Some (System (sys_taic s) h
                 (<[tid := Ctx (ctx_thread c) (ctx_regs c) (Some cpu)]> (sys_ctx s)))
  | EvClear tid cpu saved =>
    let c := sys_ctx s tid in
    h ← uintr_clear (sys_taic s) cpu (ctx_thread c) (sys_hw s);
    Some (System (sys_taic s) h
                 (<[tid := Ctx (ctx_thread c) saved None]> (sys_ctx s)))
  end.

Fixpoint sys_run (s : system) (tr : list event) : option system :=
  match tr with
  | [] => Some s
  | e :: tr => s' ← sys_step s e; sys_run s' tr
  end.

(** The content of the ownership register of the slot that [tid] is bound
    to, in the instance [inst]. *)
Definition published (inst : taic_priv) (s : system) (tid : nat) : option Z :=
  mmio (sys_hw s)
    !! ulq_cpuid_reg (regs inst) (lq_num inst) (lq_idx (ctx_thread (sys_ctx s tid))).

(** The owner the register ought to name. *)
Definition owner_of (c : context) : Z :=
  match ctx_user c with
  | Some cpu => Z.of_nat cpu
  | None => NOWHERE
  end.

Definition owner_ok (inst : taic_priv) (s : system) (tid : nat) : Prop :=
  published inst s tid = Some (owner_of (sys_ctx s tid)).

(** ** Well-formedness of the handler tables *)

(** The user-level slot of [cpu] is claimed for an instance whose fields
    are [inst]. *)
Definition uhandler_bound (d : taic_state) (cpu : nat) (inst : taic_priv) : Prop :=
  ∃ p, per_cpu_ptr (taic_uhandlers d) cpu = TaicHandler true (Some p)
       ∧ kmem d !! p = Some inst.

(** Every claimed slot refers to a live instance. *)
Definition handlers_wf (d : taic_state) : Prop :=
  ∀ lvl cpu hd, handlers lvl d !! cpu = Some hd → present hd = true →
    ∃ p, priv hd = Some p ∧ p ∈ dom (kmem d).

(** The state before any registration: zeroed tables, empty heap. *)
Definition taic_boot : taic_state := TaicState ∅ ∅ ∅ ∅ [].

(** The driver states that can arise: the boot state, and what any number
    of registrations make of it. *)
Inductive registered : taic_state → Prop :=
| registered_boot : registered taic_boot
| registered_init pf node d :
    registered d → registered (snd (__taic_init pf node d)).

(** An entry that passes every check of the loop body and so names the
    slot [(lvl, cpu)]. *)
Definition routes_to (pf : platform) (node : device_node) (i : nat)
    (lvl : level) (cpu : nat) : Prop :=
  ∃ parent,
    of_irq_parse_one node i = Some parent
    ∧ (negb (args0 parent =? IRQ_U_SOFT) && negb (args0 parent =? IRQ_S_SOFT)) = false
    ∧ lvl = (if args0 parent =? IRQ_U_SOFT then ULevel else SLevel)
    ∧ 0 ≤ fst (riscv_of_parent_hartid pf (np parent))
    ∧ riscv_hartid_to_cpuid pf (snd (riscv_of_parent_hartid pf (np parent)))
      = Z.of_nat cpu.

(** Running one entry: what the tables, the heap and the log look like
    afterwards, by the outcome of the checks. *)
Inductive context_outcome (pf : platform) (node : device_node) (p : nat)
    (d : taic_state) (i : nat) : taic_state → Prop :=
| OutSkipped m :
    context_outcome pf node p d i (pr m d)
| OutIgnored :
    context_outcome pf node p d i d
| OutConflict lvl cpu :
    routes_to pf node i lvl cpu →
    present (per_cpu_ptr (handlers lvl d) cpu) = true →
    context_outcome pf node p d i
      (pr (WarnHandlerPresent i) (priv_update (cpumask_set_cpu lvl cpu) p d))
| OutClaimed lvl cpu :
    routes_to pf node i lvl cpu →
    present (per_cpu_ptr (handlers lvl d) cpu) = false →
    context_outcome pf node p d i
      (handler_store lvl cpu (TaicHandler true (Some p))
         (priv_update (cpumask_set_cpu lvl cpu) p d)).

(** An entry that claims nothing: either it fails one of the checks
    (unparsable, another cause, unknown hart or core) or the slot it names is
    already claimed. *)
Definition context_skipped (pf : platform) (node : device_node)
    (d : taic_state) (i : nat) : Prop :=
  ∀ lvl cpu, routes_to pf node i lvl cpu →
    present (per_cpu_ptr (handlers lvl d) cpu) = true.

(** ** Preconditions of the ownership invariant *)

(** A trap hook of the context [tid]. *)
Definition is_hook (tid : nat) (e : event) : Prop :=
  match e with
  | EvSet t _ | EvClear t _ _ => t = tid
  | EvEnable _ _ => False
  end.

(** The hook runs on a core whose user-level slot is claimed for [inst]. *)
Definition ev_bound (d : taic_state) (inst : taic_priv) (e : event) : Prop :=
  match e with
  | EvEnable _ _ => True
  | EvSet _ cpu | EvClear _ cpu _ => uhandler_bound d cpu inst
  end.

(** Single writer per slot: no other context is enabled on an index that
    selects the register [reg] ... *)
Definition ev_exclusive (inst : taic_priv) (tid : nat) (reg : Z) (e : event) : Prop :=
  match e with
  | EvEnable tid' idx =>
    tid' ≠ tid → ulq_cpuid_reg (regs inst) (lq_num inst) idx ≠ reg
  | _ => True
  end.

(** ... and none is bound to it already. *)
Definition ctx_exclusive (inst : taic_priv) (s : system) (tid : nat) (reg : Z) : Prop :=
  ∀ tid', tid' ≠ tid →
    is_uintr_enabled (ctx_thread (sys_ctx s tid')) = true →
    ulq_cpuid_reg (regs inst) (lq_num inst) (lq_idx (ctx_thread (sys_ctx s tid'))) ≠ reg.

(** What stays true of the context [tid] once it is enabled with thread
    state [t]: the tables are those of [d], the thread is unchanged, and no
    other enabled context shares its register. *)
Definition settled (d : taic_state) (inst : taic_priv) (tid : nat)
    (t : thread_struct) (s : system) : Prop :=
  sys_taic s = d
  ∧ ctx_thread (sys_ctx s tid) = t
  ∧ ctx_exclusive inst s tid (ulq_cpuid_reg (regs inst) (lq_num inst) (lq_idx t)).

End Taic.

(** ** Further vocabulary for registration and the trap hooks *)

(** The core mask of an instance for one privilege level. *)
Definition mask_of (lvl : level) (q : taic_priv) : gset nat :=
  match lvl with
  | ULevel => umask q
  | SLevel => smask q
  end.

(** The handler that [__taic_init] stores for the instance at [p]. *)
Definition claimed_by (p : nat) : taic_handler := TaicHandler true (Some p).

(** The log lines that the loop body can print for entry [i]. *)
Definition context_msg (i : nat) (m : log_msg) : Prop :=
  m ∈ [ErrParseParent i; WarnHartId i; WarnCpuId i; WarnHandlerPresent i].

(** The warning printed when a capacity property is missing. *)
Definition default_warning (m : log_msg) (o : option Z) : list log_msg :=
  match o with
  | Some _ => []
  | None => [m]
  end.

(** The context an event belongs to. *)
Definition ev_tid (e : event) : nat :=
  match e with
  | EvEnable tid _ | EvSet tid _ | EvClear tid _ _ => tid
  end.

(** The slot number that an index selects, without wrap-around. *)
Definition slot_number (lq_num lq_idx : Z) : Z :=
  (lq_idx ≫ 32) * lq_num + Z.land lq_idx 0xffffffff.

(** ** Register helpers of the system monitor
    (drivers/iio/adc/versal-sysmon.h, lines 166-171) *)

Module Sysmon.

(** [#define twoscomp(val) ((((val) ^ 0xFFFF) + 1) & 0x0000FFFF)].  The mask
    makes the result independent of the width of the integer type. *)
Definition twoscomp (val : Z) : Z := Z.land (Z.lxor val 0xFFFF + 1) 0x0000FFFF.

(** [#define REG32_OFFSET(address) (4 * ((address) / 32))]; C division
    truncates. *)
Definition REG32_OFFSET (address : Z) : Z := 4 * (address ÷ 32).

(** [#define REG32_SHIFT(address) ((address) % 32)]. *)
Definition REG32_SHIFT (address : Z) : Z := Z.rem address 32.

(** [#define compare(val, thresh)], lines 170-171. *)
Definition compare (val thresh : Z) : bool :=
  if negb (Z.land val 0x8000 =? 0) || negb (Z.land thresh 0x8000 =? 0)
  then val <? thresh
  else thresh <? val.

End Sysmon.

(** ** A concrete platform: one controller, two harts *)

(** Hart 0 has a user-level and a supervisor-level routing entry, hart 1 a
    user-level one; the node gives lq-num = 8 and no gq-num. *)
Definition demo_node : device_node :=
  DeviceNode (Some (Resource 0x2000000 0x2ffffff)) None (Some 8) 3
    (λ i, match i with
          | O => Some (OfPhandleArgs 0 0)
          | S O => Some (OfPhandleArgs 0 1)
          | S (S O) => Some (OfPhandleArgs 1 0)
          | _ => None
          end).

Definition demo_platform : platform :=
  Platform true (λ r, res_end r - res_start r + 1) (λ s _, 0xffff000000000000 + s)
           (λ n, (0, Z.of_nat n)) (λ hartid, hartid).

Definition demo_taic : taic_state := snd (__taic_init demo_platform demo_node taic_boot).

Definition demo_priv : taic_priv :=
  TaicPriv {[0%nat]} ({[1%nat]} ∪ ({[0%nat]} ∪ ∅))
           0xffff000002000000 0x2000000 0x1000000 8 4.

(** The ownership register of slot 3 of the controller holds 0; no context
    is enabled or in user mode. *)
Definition demo_reg3 : Z := 0xffff000002004038.

Definition demo_sys : system :=
  System demo_taic (HwState {[demo_reg3 := 0]} (λ _ _, 0) [])
         (λ _, Ctx (ThreadStruct false 0) (PtRegs 0 0 0 0 0) None).

(** The same with context 0 enabled on slot 3. *)
Definition demo_armed : system :=
  System demo_taic (HwState {[demo_reg3 := 0]} (λ _ _, 0) [])
         (<[0%nat := Ctx (ThreadStruct true 3) (PtRegs 0 0 0 0 0) None]>
            (sys_ctx demo_sys)).

(** A node that maps but declares no routing entry. *)
Definition demo_node_empty : device_node :=
  DeviceNode (Some (Resource 0x3000000 0x3ffffff)) None None 0 (λ _, None).

(** Nothing enabled, and slot 3 released: its register holds the all-ones
    value. *)
Definition demo_idle : system :=
  System demo_taic (HwState {[demo_reg3 := NOWHERE]} (λ _ _, 0) [])
         (sys_ctx demo_sys).

(** ** Arithmetic of the slot address *)

Lemma wrap64_small x : u64_range x → wrap64 x = x.
Proof. unfold u64_range, wrap64. intros Hx. by apply Z.mod_small. Qed.

Lemma ptr_add_assoc p a b : ptr_add (ptr_add p a) b = ptr_add p (a + b).
Proof.
  unfold ptr_add, wrap64.
  rewrite Zplus_mod_idemp_l. f_equal. lia.
Qed.

Lemma idx_high_bound idx : u64_range idx → 0 ≤ idx ≫ 32 < 2 ^ 32.
Proof.
  unfold u64_range, u64_mod. intros [Hlo Hhi].
  rewrite Z.shiftr_div_pow2 by lia. split.
  - apply Z.div_pos; lia.
  - apply Z.div_lt_upper_bound; lia.
Qed.

Lemma idx_low_bound idx : 0 ≤ Z.land idx 0xffffffff < 2 ^ 32.
Proof.
  change 0xffffffff with (Z.ones 32). rewrite Z.land_ones by lia.
  apply Z.mod_pos_bound. lia.
Qed.

Lemma ulq_slot_exact n idx :
  u64_range idx → u8_range n →
  ulq_slot n idx = (idx ≫ 32) * n + Z.land idx 0xffffffff
  ∧ 0 ≤ ulq_slot n idx < 2 ^ 41.
Proof.
  intros Hidx Hn. unfold ulq_slot.
  pose proof (idx_high_bound idx Hidx) as Hh.
  pose proof (idx_low_bound idx) as Hl.
  unfold u8_range in Hn.
  assert (0 ≤ (idx ≫ 32) * n < 2 ^ 40) as Hm by nia.
  rewrite (wrap64_small ((idx ≫ 32) * n)) by (unfold u64_range, u64_mod; lia).
  rewrite wrap64_small by (unfold u64_range, u64_mod; lia).
  split; [done | lia].
Qed.

Lemma ulq_cpuid_offset_exact n idx :
  u64_range idx → u8_range n →
  ulq_cpuid_offset n idx
  = LQ_OFFSET + ((idx ≫ 32) * n + Z.land idx 0xffffffff) * LQ_SIZE + 0x38.
Proof.
  intros Hidx Hn. unfold ulq_cpuid_offset.
  destruct (ulq_slot_exact n idx Hidx Hn) as [Heq Hb].
  rewrite wrap64_small.
  - by rewrite Heq.
  - unfold u64_range, u64_mod, LQ_SIZE. lia.
Qed.

Lemma ulq_cpuid_reg_offset base n idx :
  ulq_cpuid_reg base n idx = ptr_add base (ulq_cpuid_offset n idx).
Proof.
  unfold ulq_cpuid_reg, ulq_cpuid_offset.
  rewrite !ptr_add_assoc. f_equal. lia.
Qed.

Section TaicFacts.
Context `{KernelHeaders}.

(** ** The publish and release operations *)

Lemma per_cpu_ptr_present tbl cpu :
  present (per_cpu_ptr tbl cpu) = true →
  tbl !! cpu = Some (per_cpu_ptr tbl cpu).
Proof.
  unfold per_cpu_ptr. destruct (tbl !! cpu) as [hd|]; simpl; [done | discriminate].
Qed.

Lemma handlers_wf_deref d cpu :
  handlers_wf d →
  present (per_cpu_ptr (taic_uhandlers d) cpu) = true →
  is_Some (deref_priv d (priv (per_cpu_ptr (taic_uhandlers d) cpu))).
Proof.
  intros Hwf Hp.
  destruct (Hwf ULevel cpu _ (per_cpu_ptr_present _ _ Hp) Hp) as (p & Hpriv & Hdom).
  unfold deref_priv. rewrite Hpriv. simpl. by apply elem_of_dom.
Qed.

Lemma taic_ulq_write_cpuid_bound d cpu inst idx v h :
  uhandler_bound d cpu inst →
  taic_ulq_write_cpuid d cpu idx v h
  = Some (0, writeq v (ulq_cpuid_reg (regs inst) (lq_num inst) idx) h).
Proof.
  intros (p & Hh & Hp). unfold taic_ulq_write_cpuid.
  rewrite Hh. simpl. by rewrite Hp.
Qed.

Lemma taic_ulq_write_cpuid_absent d cpu idx v h :
  present (per_cpu_ptr (taic_uhandlers d) cpu) = false →
  taic_ulq_write_cpuid d cpu idx v h = Some (- EINVAL, h).
Proof. intros Hp. unfold taic_ulq_write_cpuid. by rewrite Hp. Qed.

End TaicFacts.

Section Registration.
Context `{KernelHeaders}.

(** ** Registration keeps the handler tables well formed *)

Lemma handlers_wf_boot : handlers_wf taic_boot.
Proof. intros [] cpu hd Hl; simpl in Hl; by rewrite lookup_empty in Hl. Qed.

Lemma handlers_wf_ext d d' :
  (∀ lvl, handlers lvl d' = handlers lvl d) →
  dom (kmem d) ⊆ dom (kmem d') →
  handlers_wf d → handlers_wf d'.
Proof.
  intros Hh Hdom Hwf lvl cpu hd Hl Hp. rewrite Hh in Hl.
  destruct (Hwf lvl cpu hd Hl Hp) as (p & Hpr & Hin).
  exists p. split; [done | set_solver].
Qed.

Lemma handlers_priv_update lvl f p d :
  handlers lvl (priv_update f p d) = handlers lvl d.
Proof. by destruct lvl. Qed.

Lemma handlers_pr lvl m d : handlers lvl (pr m d) = handlers lvl d.
Proof. by destruct lvl. Qed.

Lemma handlers_handler_store lvl lvl' cpu hd d :
  handlers lvl' (handler_store lvl cpu hd d)
  = if decide (lvl' = lvl) then <[cpu := hd]> (handlers lvl d) else handlers lvl' d.
Proof. destruct lvl, lvl'; done. Qed.

Lemma kmem_handler_store lvl cpu hd d : kmem (handler_store lvl cpu hd d) = kmem d.
Proof. by destruct lvl. Qed.

Lemma dom_kmem_priv_update f p d : dom (kmem (priv_update f p d)) = dom (kmem d).
Proof. simpl. apply leibniz_equiv, dom_alter. Qed.

Lemma taic_init_context_outcome pf node p d i :
  context_outcome pf node p d i (taic_init_context pf node p d i).
Proof.
  unfold taic_init_context.
  destruct (of_irq_parse_one node i) as [parent|] eqn:Hparse; [|constructor].
  destruct (negb (args0 parent =? IRQ_U_SOFT) && negb (args0 parent =? IRQ_S_SOFT))
    eqn:Hcause; [constructor|].
  destruct (riscv_of_parent_hartid pf (np parent)) as [error hartid] eqn:Hhart.
  destruct (error <? 0) eqn:Herr; [constructor|].
  destruct (riscv_hartid_to_cpuid pf hartid <? 0) eqn:Hcpu; [constructor|].
  set (lvl := if args0 parent =? IRQ_U_SOFT then ULevel else SLevel).
  set (c := Z.to_nat (riscv_hartid_to_cpuid pf hartid)).
  assert (routes_to pf node i lvl c) as Hroute.
  { exists parent. rewrite Hhart. simpl. repeat split; try done.
    - lia.
    - unfold c. lia. }
  rewrite handlers_priv_update.
  destruct (present (per_cpu_ptr (handlers lvl d) c)) eqn:Hpres.
  - by apply OutConflict.
  - by apply OutClaimed.
Qed.

Lemma taic_init_context_dom pf node p d i :
  dom (kmem (taic_init_context pf node p d i)) = dom (kmem d)
  ∧ iomem (taic_init_context pf node p d i) = iomem d.
Proof.
  destruct (taic_init_context_outcome pf node p d i) as [m| |lvl cpu _ _|lvl cpu _ _].
  - done.
  - done.
  - split; [|done]. apply dom_kmem_priv_update.
  - rewrite kmem_handler_store. split; [apply dom_kmem_priv_update | by destruct lvl].
Qed.

(** A claimed slot is never rebound by a later entry. *)
Lemma taic_init_context_keeps pf node p d i lvl cpu hd :
  handlers lvl d !! cpu = Some hd → present hd = true →
  handlers lvl (taic_init_context pf node p d i) !! cpu = Some hd.
Proof.
  intros Hl Hp.
  destruct (taic_init_context_outcome pf node p d i) as [m| |lvl' c _ _|lvl' c _ Habs].
  - by rewrite handlers_pr.
  - done.
  - by rewrite handlers_pr, handlers_priv_update.
  - rewrite handlers_handler_store, !handlers_priv_update.
    case_decide as Hlvl; [|done]. subst lvl'.
    rewrite lookup_insert_ne; [done|].
    intros ->. unfold per_cpu_ptr in Habs. rewrite Hl in Habs. simpl in Habs. congruence.
Qed.

Lemma taic_init_context_wf pf node p d i :
  p ∈ dom (kmem d) → handlers_wf d →
  handlers_wf (taic_init_context pf node p d i).
Proof.
  intros Hp Hwf.
  destruct (taic_init_context_outcome pf node p d i) as [m| |lvl c _ _|lvl c _ _].
  - eapply handlers_wf_ext; [| |exact Hwf]; [intros; apply handlers_pr | done].
  - done.
  - eapply handlers_wf_ext; [| |exact Hwf].
    + intros. by rewrite handlers_pr, handlers_priv_update.
    + simpl. by rewrite dom_alter.
  - intros lvl' cpu hd Hl Hpres.
    rewrite handlers_handler_store, !handlers_priv_update in Hl.
    rewrite kmem_handler_store, dom_kmem_priv_update.
    case_decide as Hlvl; [subst lvl'|by eapply Hwf].
    destruct (decide (c = cpu)) as [->|Hne].
    + rewrite lookup_insert_eq in Hl. injection Hl as <-. by exists p.
    + rewrite lookup_insert_ne in Hl by done. by eapply Hwf.
Qed.

Lemma taic_init_contexts_dom pf node p ixs d :
  dom (kmem (taic_init_contexts pf node p ixs d)) = dom (kmem d)
  ∧ iomem (taic_init_contexts pf node p ixs d) = iomem d.
Proof.
  revert d. induction ixs as [|i ixs IH]; intros d; [done|].
  simpl. destruct (IH (taic_init_context pf node p d i)) as [-> ->].
  apply taic_init_context_dom.
Qed.

Lemma taic_init_contexts_keeps pf node p ixs d lvl cpu hd :
  handlers lvl d !! cpu = Some hd → present hd = true →
  handlers lvl (taic_init_contexts pf node p ixs d) !! cpu = Some hd.
Proof.
  revert d. induction ixs as [|i ixs IH]; intros d Hl Hp; [done|].
  simpl. apply IH; [|done]. by apply taic_init_context_keeps.
Qed.

Lemma taic_init_contexts_wf pf node p ixs d :
  p ∈ dom (kmem d) → handlers_wf d →
  handlers_wf (taic_init_contexts pf node p ixs d).
Proof.
  revert d. induction ixs as [|i ixs IH]; intros d Hp Hwf; [done|].
  simpl. apply IH.
  - by rewrite (proj1 (taic_init_context_dom pf node p d i)).
  - by apply taic_init_context_wf.
Qed.

(** An entry that passes the checks sets the core in the mask of the
    instance and then claims the slot, unless it is taken. *)
Lemma taic_init_context_routed pf node p d i lvl cpu :
  routes_to pf node i lvl cpu →
  taic_init_context pf node p d i
  = let d1 := priv_update (cpumask_set_cpu lvl cpu) p d in
    if present (per_cpu_ptr (handlers lvl d) cpu)
    then pr (WarnHandlerPresent i) d1
    else handler_store lvl cpu (TaicHandler true (Some p)) d1.
Proof.
  intros (parent & Hparse & Hcause & Hlvl & Herr & Hcpu).
  unfold taic_init_context. rewrite Hparse, Hcause.
  destruct (riscv_of_parent_hartid pf (np parent)) as [error hartid].
  simpl in Herr, Hcpu.
  replace (error <? 0) with false by (symmetry; apply Z.ltb_ge; lia).
  rewrite Hcpu.
  replace (Z.of_nat cpu <? 0) with false by (symmetry; apply Z.ltb_ge; lia).
  rewrite Nat2Z.id, <- Hlvl. simpl.
  by rewrite handlers_priv_update.
Qed.

Lemma taic_init_context_skipped pf node p d i :
  context_skipped pf node d i →
  ∀ lvl, handlers lvl (taic_init_context pf node p d i) = handlers lvl d.
Proof.
  intros Hskip lvl.
  destruct (taic_init_context_outcome pf node p d i) as [m| |lvl' c _ _|lvl' c Hr Habs].
  - apply handlers_pr.
  - done.
  - by rewrite handlers_pr, handlers_priv_update.
  - rewrite (Hskip lvl' c Hr) in Habs. discriminate.
Qed.

Lemma context_skipped_ext pf node d d' i :
  (∀ lvl, handlers lvl d' = handlers lvl d) →
  context_skipped pf node d i → context_skipped pf node d' i.
Proof. intros Hh Hs lvl cpu Hr. rewrite Hh. by apply Hs. Qed.

Lemma taic_init_contexts_skipped pf node p ixs d :
  Forall (context_skipped pf node d) ixs →
  ∀ lvl, handlers lvl (taic_init_contexts pf node p ixs d) = handlers lvl d.
Proof.
  revert d. induction ixs as [|i ixs IH]; intros d Hall lvl; [done|].
  apply Forall_cons in Hall as [Hi Hall]. simpl.
  pose proof (taic_init_context_skipped pf node p d i Hi) as Hstep.
  rewrite IH; [apply Hstep|].
  eapply Forall_impl; [exact Hall|].
  intros j Hj. by eapply context_skipped_ext.
Qed.

(** The loop only adds cores to the masks of the instance. *)
Lemma taic_init_context_priv pf node p d i q :
  kmem d !! p = Some q →
  ∃ q', kmem (taic_init_context pf node p d i) !! p = Some q'
        ∧ regs q' = regs q ∧ lq_num q' = lq_num q ∧ gq_num q' = gq_num q
        ∧ start q' = start q ∧ size q' = size q.
Proof.
  intros Hq.
  destruct (taic_init_context_outcome pf node p d i) as [m| |lvl c _ _|lvl c _ _].
  - by exists q.
  - by exists q.
  - exists (cpumask_set_cpu lvl c q). simpl.
    rewrite lookup_alter_eq, Hq. by destruct lvl.
  - exists (cpumask_set_cpu lvl c q). rewrite kmem_handler_store. simpl.
    rewrite lookup_alter_eq, Hq. by destruct lvl.
Qed.

Lemma taic_init_contexts_priv pf node p ixs d q :
  kmem d !! p = Some q →
  ∃ q', kmem (taic_init_contexts pf node p ixs d) !! p = Some q'
        ∧ regs q' = regs q ∧ lq_num q' = lq_num q ∧ gq_num q' = gq_num q
        ∧ start q' = start q ∧ size q' = size q.
Proof.
  revert d q. induction ixs as [|i ixs IH]; intros d q Hq; [by exists q|].
  simpl.
  destruct (taic_init_context_priv pf node p d i q Hq)
    as (q1 & Hq1 & Hr & Hl & Hg & Hs & Hz).
  destruct (IH _ _ Hq1) as (q2 & Hq2 & Hr2 & Hl2 & Hg2 & Hs2 & Hz2).
  exists q2. repeat split; congruence.
Qed.

(** *** The whole of [__taic_init] *)

Lemma fresh_kmem_None (d : taic_state) : kmem d !! fresh (dom (kmem d)) = None.
Proof. apply not_elem_of_dom, is_fresh. Qed.

(** When allocation, resource lookup and mapping succeed and the node has
    routing entries, the loop runs from a state that differs from the initial
    one by the new instance and its mapping (and possibly log lines). *)
Lemma __taic_init_ok pf node d res :
  kzalloc_ok pf = true →
  of_address_to_resource node = Some res →
  ioremap pf (res_start res) (resource_size pf res) ≠ 0 →
  of_irq_count node ≠ 0 →
  let p := fresh (dom (kmem d)) in
  let base := ioremap pf (res_start res) (resource_size pf res) in
  let gq := default DEFAULT_GQ_NUM (of_read_gq_num node) in
  let lq := default DEFAULT_LQ_NUM (of_read_lq_num node) in
  ∃ d0,
    __taic_init pf node d
    = (0, pr (InfoAvailable gq lq)
             (taic_init_contexts pf node p (seq 0 (Z.to_nat (of_irq_count node))) d0))
    ∧ (∀ lvl, handlers lvl d0 = handlers lvl d)
    ∧ kmem d0
      = <[p := TaicPriv ∅ ∅ base (res_start res) (resource_size pf res) lq gq]> (kmem d)
    ∧ iomem d0 = {[base]} ∪ iomem d.
Proof.
  intros Hk Hres Hmap Hnr p base gq lq.
  unfold __taic_init, kzalloc. rewrite Hk, Hres.
  fold p. fold base.
  apply Z.eqb_neq in Hmap. fold base in Hmap. rewrite Hmap.
  apply Z.eqb_neq in Hnr.
  subst gq lq.
  destruct (of_read_gq_num node) as [g|], (of_read_lq_num node) as [l|];
    simpl; rewrite Hnr; eexists; (split; [reflexivity|]);
    (split; [by intros []|]); simpl; rewrite !alter_insert_eq; done.
Qed.

(** In every other case registration fails, and leaves the tables and the
    heap as they were. *)
Lemma __taic_init_cases pf node d :
  (kzalloc_ok pf = true
   ∧ ∃ res, of_address_to_resource node = Some res
            ∧ ioremap pf (res_start res) (resource_size pf res) ≠ 0
            ∧ of_irq_count node ≠ 0)
  ∨ (fst (__taic_init pf node d) < 0
     ∧ (∀ lvl, handlers lvl (snd (__taic_init pf node d)) = handlers lvl d)
     ∧ kmem (snd (__taic_init pf node d)) = kmem d).
Proof.
  pose proof EINVAL_pos. pose proof ENOMEM_pos. pose proof EIO_pos.
  pose proof (fresh_kmem_None d) as Hfresh.
  unfold __taic_init, kzalloc.
  destruct (kzalloc_ok pf); [|right; simpl; split; [lia|done]].
  destruct (of_address_to_resource node) as [res|].
  2:{ right. simpl. split; [lia|]. split; [by intros []|].
      by rewrite delete_insert_id. }
  destruct (ioremap pf (res_start res) (resource_size pf res) =? 0) eqn:Hmap.
  { right. simpl. split; [lia|]. split; [by intros []|].
    rewrite !alter_insert_eq. by rewrite delete_insert_id. }
  destruct (of_irq_count node =? 0) eqn:Hnr.
  - right.
    destruct (of_read_gq_num node) as [g|], (of_read_lq_num node) as [l|];
      simpl; (split; [lia|]); (split; [by intros []|]);
      rewrite !alter_insert_eq; by rewrite delete_insert_id.
  - left. split; [done|]. exists res. apply Z.eqb_neq in Hmap, Hnr. done.
Qed.

Lemma __taic_init_keeps pf node d lvl cpu hd :
  handlers lvl d !! cpu = Some hd → present hd = true →
  handlers lvl (snd (__taic_init pf node d)) !! cpu = Some hd.
Proof.
  intros Hl Hp.
  destruct (__taic_init_cases pf node d) as [(Hk & res & Hres & Hmap & Hnr)|(_ & Hh & _)].
  - destruct (__taic_init_ok pf node d res Hk Hres Hmap Hnr) as (d0 & -> & Hh & _).
    simpl. rewrite handlers_pr.
    apply taic_init_contexts_keeps; [|done]. by rewrite Hh.
  - by rewrite Hh.
Qed.

Lemma __taic_init_wf pf node d :
  handlers_wf d → handlers_wf (snd (__taic_init pf node d)).
Proof.
  intros Hwf.
  destruct (__taic_init_cases pf node d) as [(Hk & res & Hres & Hmap & Hnr)|(_ & Hh & Hm)].
  - destruct (__taic_init_ok pf node d res Hk Hres Hmap Hnr) as (d0 & -> & Hh & Hm & _).
    simpl.
    eapply handlers_wf_ext; [intros; apply handlers_pr|done|].
    apply taic_init_contexts_wf.
    + rewrite Hm. set_solver.
    + eapply handlers_wf_ext; [exact Hh| |exact Hwf]. rewrite Hm. set_solver.
  - eapply handlers_wf_ext; [exact Hh| |exact Hwf]. by rewrite Hm.
Qed.

End Registration.

Lemma registered_wf `{KernelHeaders} d : registered d → handlers_wf d.
Proof.
  induction 1 as [|pf node d _ IH]; [apply handlers_wf_boot | by apply __taic_init_wf].
Qed.

Lemma demo_taic_registered : registered demo_taic.
Proof. apply registered_init, registered_boot. Defined.

(** ** Bit-level facts about the CSR macros *)

Lemma csr_update_same hart r v f : csr_update hart r v f hart r = v.
Proof. unfold csr_update. by rewrite !fn_lookup_insert. Qed.

Lemma csr_update_other hart r r' v f :
  r ≠ r' → csr_update hart r v f hart r' = f hart r'.
Proof.
  intros Hne. unfold csr_update.
  rewrite fn_lookup_insert. by rewrite fn_lookup_insert_ne.
Qed.

Lemma land_not64_mask v m : Z.land (Z.land v (not64 m)) m = 0.
Proof.
  apply Z.bits_inj'. intros n Hn.
  rewrite !Z.land_spec, Z.bits_0.
  unfold not64, wrap64, u64_mod.
  destruct (Z_lt_le_dec n 64) as [Hlt|Hge].
  - rewrite Z.mod_pow2_bits_low by lia.
    rewrite Z.lnot_spec by lia.
    by destruct (Z.testbit v n), (Z.testbit m n).
  - rewrite Z.mod_pow2_bits_high by lia.
    by destruct (Z.testbit v n).
Qed.

Section Claims.
Context `{KernelHeaders}.

(** C2. For a slot index [idx] with halves [idx >> 32] and
    [idx & 0xffffffff] and a capacity [lq_num], the ownership register that
    the publish operation writes lies at byte offset
    [LQ_OFFSET + (idx_high * lq_num + idx_low) * LQ_SIZE + 0x38] from the base
    of the register window: the 64-bit arithmetic of the code never wraps. *)
Theorem taic_ulq_write_cpuid_offset d cpu inst idx v h :
  uhandler_bound d cpu inst → u8_range (lq_num inst) → u64_range idx →
  let idx_high := idx ≫ 32 in
  let idx_low := Z.land idx 0xffffffff in
  let off := LQ_OFFSET + (idx_high * lq_num inst + idx_low) * LQ_SIZE + 0x38 in
  LQ_OFFSET = 0x1000 ∧ LQ_SIZE = 0x1000
  ∧ ulq_cpuid_offset (lq_num inst) idx = off
  ∧ taic_ulq_write_cpuid d cpu idx v h
    = Some (0, writeq v (ptr_add (regs inst) off) h).
Proof.
  intros Hb Hn Hidx idx_high idx_low off.
  pose proof (ulq_cpuid_offset_exact _ _ Hidx Hn) as Hoff.
  fold idx_high idx_low off in Hoff.
  repeat split; try done.
  rewrite (taic_ulq_write_cpuid_bound _ _ _ _ _ _ Hb).
  by rewrite ulq_cpuid_reg_offset, Hoff.
Qed.

(** C4. [uintr_enable] always returns 0, and calling it twice with the same
    index leaves the thread (enabled flag and stored index) exactly as one
    call does. *)
Theorem uintr_enable_idempotent idx t :
  fst (uintr_enable idx t) = 0
  ∧ fst (uintr_enable idx (snd (uintr_enable idx t))) = 0
  ∧ snd (uintr_enable idx (snd (uintr_enable idx t))) = snd (uintr_enable idx t).
Proof.
  unfold uintr_enable.
  destruct (is_uintr_enabled t) eqn:Hen; simpl; by rewrite ?Hen.
Qed.

(** C9. A second [uintr_enable] with another index returns 0 and changes
    no field of the thread: the index recorded by the first call (or the one
    already stored, had the thread been enabled before) stays. *)
Theorem uintr_enable_first_index_wins i j t :
  let t1 := snd (uintr_enable i t) in
  uintr_enable j t1 = (0, t1)
  ∧ is_uintr_enabled t1 = true
  ∧ lq_idx t1 = (if is_uintr_enabled t then lq_idx t else i).
Proof.
  unfold uintr_enable.
  destruct (is_uintr_enabled t) eqn:Hen; simpl; by rewrite ?Hen.
Qed.

(** C6. The publish and the release operation return a negative status
    exactly when the user-level handler slot of the invoking core is not
    present; then the hardware is left as it was.  Otherwise they return 0
    and make one register write.  This holds in every driver state that
    registration can produce. *)
Theorem taic_publish_release_status d cpu idx v h :
  registered d →
  let bound := present (per_cpu_ptr (taic_uhandlers d) cpu) in
  (∃ r h', taic_ulq_write_cpuid d cpu idx v h = Some (r, h')
     ∧ (r < 0 ↔ bound = false)
     ∧ (bound = false → h' = h)
     ∧ (bound = true → r = 0 ∧ ∃ addr,
          hw_trace h' = hw_trace h ++ [MmioWriteq addr v]
          ∧ mmio h' = <[addr := v]> (mmio h) ∧ csrs h' = csrs h))
  ∧ (∃ r h', taic_free_lq d cpu idx h = Some (r, h')
     ∧ (r < 0 ↔ bound = false)
     ∧ (bound = false → h' = h)
     ∧ (bound = true → r = 0 ∧ ∃ addr,
          hw_trace h' = hw_trace h ++ [MmioWriteq addr idx]
          ∧ mmio h' = <[addr := idx]> (mmio h) ∧ csrs h' = csrs h)).
Proof.
  intros Hreg bound. pose proof EINVAL_pos as Hpos.
  pose proof (registered_wf d Hreg) as Hwf.
  unfold taic_ulq_write_cpuid, taic_free_lq. fold bound.
  destruct bound eqn:Hb; simpl.
  - destruct (handlers_wf_deref d cpu Hwf Hb) as [q Hq]. rewrite Hq. simpl.
    split; eexists _, _; (split; [reflexivity|]);
      (split; [split; [lia|discriminate]|]);
      (split; [discriminate|]); intros _; (split; [done|]);
      eexists; simpl; done.
  - split; eexists _, _; (split; [reflexivity|]);
      (split; [split; [done|lia]|]); (split; [done|discriminate]).
Qed.

(** C3. When [uintr_set] runs for a thread whose enable flag is off, the
    user-interrupt-enable bit of UIE and the pending bit of UIP are clear
    afterwards, whatever the registers held before, and no device register is
    written. *)
Theorem uintr_set_disabled d cpu t rg h :
  is_uintr_enabled t = false →
  ∃ h', uintr_set d cpu t rg h = Some h'
    ∧ Z.land (csrs h' cpu CSR_UIE) IE_USIE = 0
    ∧ Z.land (csrs h' cpu CSR_UIP) IE_USIE = 0
    ∧ mmio h' = mmio h
    ∧ hw_trace h' = hw_trace h ++ [CsrSet cpu CSR_SIDELEG IE_USIE;
                                   CsrClear cpu CSR_UIE IE_USIE;
                                   CsrClear cpu CSR_UIP IE_USIE].
Proof.
  intros Hen. unfold uintr_set. rewrite Hen. simpl.
  eexists. split; [reflexivity|]. simpl.
  repeat split.
  - rewrite csr_update_other by done. rewrite csr_update_same.
    apply land_not64_mask.
  - rewrite csr_update_same. apply land_not64_mask.
  - by rewrite <- !app_assoc.
Qed.

(** C7. When [uintr_set] runs on [cpu] for an enabled thread, it first sets
    the delegation bit in SIDELEG, then writes the number of the core to the
    ownership register of the bound slot, and only then restores UIE, UEPC,
    UTVEC and USCRATCH from the saved registers; last it reads UIP and
    writes back the saved UIP or-ed with what it read.  The delegation bit is
    set first whatever the state of the thread. *)
Theorem uintr_set_armed d cpu inst t rg h :
  uhandler_bound d cpu inst → is_uintr_enabled t = true →
  let reg := ulq_cpuid_reg (regs inst) (lq_num inst) (lq_idx t) in
  let cur := csrs h cpu CSR_UIP in
  (∃ h', uintr_set d cpu t rg h = Some h'
     ∧ hw_trace h'
       = hw_trace h ++ [CsrSet cpu CSR_SIDELEG IE_USIE;
                        MmioWriteq reg (Z.of_nat cpu);
                        CsrWrite cpu CSR_UIE (uie rg);
                        CsrWrite cpu CSR_UEPC (uepc rg);
                        CsrWrite cpu CSR_UTVEC (utvec rg);
                        CsrWrite cpu CSR_USCRATCH (uscratch rg);
                        CsrRead cpu CSR_UIP cur;
                        CsrWrite cpu CSR_UIP (Z.lor (uip rg) cur)]
     ∧ mmio h' = <[reg := Z.of_nat cpu]> (mmio h)
     ∧ csrs h' cpu CSR_SIDELEG = Z.lor (csrs h cpu CSR_SIDELEG) IE_USIE
     ∧ csrs h' cpu CSR_UIE = uie rg
     ∧ csrs h' cpu CSR_UEPC = uepc rg
     ∧ csrs h' cpu CSR_UTVEC = utvec rg
     ∧ csrs h' cpu CSR_USCRATCH = uscratch rg
     ∧ csrs h' cpu CSR_UIP = Z.lor (uip rg) cur)
  ∧ (∀ t', ∃ h' rest, uintr_set d cpu t' rg h = Some h'
       ∧ hw_trace h' = hw_trace h ++ CsrSet cpu CSR_SIDELEG IE_USIE :: rest).
Proof.
  intros Hb Hen reg cur. split.
  - unfold uintr_set. rewrite Hen. simpl.
    rewrite (taic_ulq_write_cpuid_bound _ _ _ _ _ _ Hb). simpl.
    eexists. split; [reflexivity|]. simpl.
    rewrite !(csr_update_other _ _ CSR_UIP) by done.
    repeat split.
    + by rewrite <- !app_assoc.
    + rewrite !(csr_update_other _ _ CSR_SIDELEG) by done.
      by rewrite csr_update_same.
    + rewrite !(csr_update_other _ _ CSR_UIE) by done.
      by rewrite csr_update_same.
    + rewrite !(csr_update_other _ _ CSR_UEPC) by done.
      by rewrite csr_update_same.
    + rewrite !(csr_update_other _ _ CSR_UTVEC) by done.
      by rewrite csr_update_same.
    + rewrite !(csr_update_other _ _ CSR_USCRATCH) by done.
      by rewrite csr_update_same.
    + by rewrite csr_update_same.
  - intros t'. unfold uintr_set.
    destruct (is_uintr_enabled t'); simpl.
    + rewrite (taic_ulq_write_cpuid_bound _ _ _ _ _ _ Hb). simpl.
      eexists _, _. split; [reflexivity|]. simpl.
      rewrite <- !app_assoc. reflexivity.
    + eexists _, _. split; [reflexivity|]. simpl.
      rewrite <- !app_assoc. reflexivity.
Qed.

(** C10. [uintr_clear] for an enabled thread writes the all-ones value to
    the ownership register of the bound slot, whether or not the thread has
    run in user mode since it was enabled (in particular right after
    [uintr_enable]).  A second clear writes the same value again: the device
    registers, the CSRs and the thread are as after the first. *)
Theorem uintr_clear_idempotent d cpu inst t h :
  uhandler_bound d cpu inst → is_uintr_enabled t = true →
  let reg := ulq_cpuid_reg (regs inst) (lq_num inst) (lq_idx t) in
  (∃ h1 h2,
     uintr_clear d cpu t h = Some h1
     ∧ hw_trace h1 = hw_trace h ++ [MmioWriteq reg NOWHERE]
     ∧ mmio h1 !! reg = Some NOWHERE
     ∧ csrs h1 = csrs h
     ∧ uintr_clear d cpu t h1 = Some h2
     ∧ mmio h2 = mmio h1
     ∧ csrs h2 = csrs h1)
  ∧ (∀ t0 idx, is_uintr_enabled t0 = false →
       let t1 := snd (uintr_enable idx t0) in
       let reg1 := ulq_cpuid_reg (regs inst) (lq_num inst) idx in
       ∃ h1, uintr_clear d cpu t1 h = Some h1
         ∧ mmio h1 !! reg1 = Some NOWHERE)
  ∧ (∀ s tid saved,
       sys_taic s = d → ctx_thread (sys_ctx s tid) = t →
       ∃ s1 s2,
         sys_step s (EvClear tid cpu saved) = Some s1
         ∧ sys_step s1 (EvClear tid cpu saved) = Some s2
         ∧ published inst s1 tid = Some NOWHERE
         ∧ published inst s2 tid = Some NOWHERE
         ∧ sys_ctx s2 tid = sys_ctx s1 tid
         ∧ ctx_thread (sys_ctx s1 tid) = t
         ∧ mmio (sys_hw s2) = mmio (sys_hw s1)).
Proof.
  intros Hb Hen reg.
  assert (∀ h0, uintr_clear d cpu t h0 = Some (writeq NOWHERE reg h0)) as Hclr.
  { intros h0. unfold uintr_clear. rewrite Hen. simpl.
    by rewrite (taic_ulq_write_cpuid_bound _ _ _ _ _ _ Hb). }
  split; [|split].
  - eexists _, _. rewrite !Hclr. simpl.
    repeat split; try done.
    + simpl. by rewrite lookup_insert_eq.
    + simpl. by rewrite insert_insert_eq.
  - intros t0 idx Hdis t1 reg1. subst t1. unfold uintr_enable. rewrite Hdis. simpl.
    unfold uintr_clear. simpl.
    rewrite (taic_ulq_write_cpuid_bound _ _ _ _ _ _ Hb). simpl.
    eexists. split; [reflexivity|]. simpl. by rewrite lookup_insert_eq.
  - intros s tid saved Hd Ht.
    unfold sys_step. rewrite Hd, Ht, Hclr. simpl.
    eexists _, _. split; [reflexivity|].
    cbn [sys_ctx sys_taic sys_hw]. rewrite fn_lookup_insert.
    cbn [ctx_thread]. rewrite Hclr. cbn [mbind option_bind].
    split; [reflexivity|].
    unfold published. cbn [sys_ctx sys_taic sys_hw].
    rewrite !fn_lookup_insert. cbn [ctx_thread writeq mmio]. fold reg.
    rewrite insert_insert_eq, lookup_insert_eq.
    done.
Qed.

(** C5. A handler slot is claimed at most once.  When registration meets a
    routing entry for a slot whose present flag is set, both tables stay as
    they are (so the slot keeps its flag and its instance), the conflict is
    logged, and the loop goes on with the remaining entries; and no run of
    [__taic_init], for whatever node, changes a slot that is already
    claimed. *)
Theorem taic_init_slot_claimed_once pf node p d i lvl cpu :
  routes_to pf node i lvl cpu →
  present (per_cpu_ptr (handlers lvl d) cpu) = true →
  let d' := taic_init_context pf node p d i in
  (∀ lvl', handlers lvl' d' = handlers lvl' d)
  ∧ per_cpu_ptr (handlers lvl d') cpu = per_cpu_ptr (handlers lvl d) cpu
  ∧ dmesg d' = dmesg d ++ [WarnHandlerPresent i]
  ∧ (∀ rest, taic_init_contexts pf node p (i :: rest) d
             = taic_init_contexts pf node p rest d')
  ∧ (∀ pf' node', per_cpu_ptr (handlers lvl (snd (__taic_init pf' node' d))) cpu
                  = per_cpu_ptr (handlers lvl d) cpu).
Proof.
  intros Hr Hp d'.
  assert (d' = pr (WarnHandlerPresent i) (priv_update (cpumask_set_cpu lvl cpu) p d))
    as Hd'.
  { subst d'. rewrite (taic_init_context_routed _ _ _ _ _ _ _ Hr).
    simpl. by rewrite Hp. }
  assert (∀ lvl', handlers lvl' d' = handlers lvl' d) as Hsame.
  { intros lvl'. by rewrite Hd', handlers_pr, handlers_priv_update. }
  split; [done|]. split; [by rewrite Hsame|].
  split; [by rewrite Hd'|]. split; [done|].
  intros pf' node'.
  pose proof (per_cpu_ptr_present _ _ Hp) as Hl.
  unfold per_cpu_ptr at 1.
  by rewrite (__taic_init_keeps pf' node' d lvl cpu _ Hl Hp).
Qed.

(** C8. Once the instance is allocated, its register window is found and
    mapped, and the node declares at least one routing entry,
    [__taic_init] returns 0 and keeps the instance and its mapping, even
    when every entry is skipped, in which case both handler tables are as
    before. *)
Theorem taic_init_succeeds_without_claims pf node d res :
  kzalloc_ok pf = true →
  of_address_to_resource node = Some res →
  ioremap pf (res_start res) (resource_size pf res) ≠ 0 →
  of_irq_count node ≠ 0 →
  let r := __taic_init pf node d in
  let p := fresh (dom (kmem d)) in
  let base := ioremap pf (res_start res) (resource_size pf res) in
  fst r = 0
  ∧ kmem d !! p = None
  ∧ (∃ q, kmem (snd r) !! p = Some q ∧ regs q = base)
  ∧ base ∈ iomem (snd r)
  ∧ (Forall (context_skipped pf node d) (seq 0 (Z.to_nat (of_irq_count node))) →
     ∀ lvl, handlers lvl (snd r) = handlers lvl d).
Proof.
  intros Hk Hres Hmap Hnr r p base.
  destruct (__taic_init_ok pf node d res Hk Hres Hmap Hnr)
    as (d0 & Hrun & Hh & Hm & Hio).
  fold p base in Hrun, Hm, Hio. subst r. rewrite Hrun. simpl.
  split; [done|]. split; [apply fresh_kmem_None|]. split; [|split].
  - assert (kmem d0 !! p = Some (TaicPriv ∅ ∅ base (res_start res) (resource_size pf res)
              (default DEFAULT_LQ_NUM (of_read_lq_num node))
              (default DEFAULT_GQ_NUM (of_read_gq_num node)))) as Hq
      by (rewrite Hm; apply lookup_insert_eq).
    destruct (taic_init_contexts_priv pf node p
                (seq 0 (Z.to_nat (of_irq_count node))) d0 _ Hq)
      as (q' & Hq' & Hregs & _).
    by exists q'.
  - rewrite (proj2 (taic_init_contexts_dom pf node p _ d0)), Hio.
    by apply elem_of_union_l, elem_of_singleton.
  - intros Hall lvl. rewrite handlers_pr.
    rewrite taic_init_contexts_skipped; [apply Hh|].
    eapply Forall_impl; [exact Hall|].
    intros j Hj. by eapply context_skipped_ext.
Qed.

End Claims.

(** ** The ownership invariant across trap boundaries *)

Section Ownership.
Context `{KernelHeaders}.

Lemma uintr_set_mmio d cpu inst t rg h :
  uhandler_bound d cpu inst →
  ∃ h', uintr_set d cpu t rg h = Some h'
    ∧ mmio h' = if is_uintr_enabled t
                then <[ulq_cpuid_reg (regs inst) (lq_num inst) (lq_idx t) := Z.of_nat cpu]>
                       (mmio h)
                else mmio h.
Proof.
  intros Hb. unfold uintr_set.
  destruct (is_uintr_enabled t); simpl.
  - rewrite (taic_ulq_write_cpuid_bound _ _ _ _ _ _ Hb). simpl. by eexists.
  - by eexists.
Qed.

Lemma uintr_clear_mmio d cpu inst t h :
  uhandler_bound d cpu inst →
  ∃ h', uintr_clear d cpu t h = Some h'
    ∧ mmio h' = if is_uintr_enabled t
                then <[ulq_cpuid_reg (regs inst) (lq_num inst) (lq_idx t) := NOWHERE]>
                       (mmio h)
                else mmio h.
Proof.
  intros Hb. unfold uintr_clear.
  destruct (is_uintr_enabled t); simpl.
  - rewrite (taic_ulq_write_cpuid_bound _ _ _ _ _ _ Hb). simpl. by eexists.
  - by eexists.
Qed.

Lemma sys_step_settled d inst tid t s e :
  is_uintr_enabled t = true →
  settled d inst tid t s →
  ev_bound d inst e →
  ev_exclusive inst tid (ulq_cpuid_reg (regs inst) (lq_num inst) (lq_idx t)) e →
  ∃ s', sys_step s e = Some s'
    ∧ settled d inst tid t s'
    ∧ (owner_ok inst s tid ∨ is_hook tid e → owner_ok inst s' tid).
Proof.
  intros Hen (Hd & Ht & Hex) Hb Hx.
  set (reg := ulq_cpuid_reg (regs inst) (lq_num inst) (lq_idx t)) in *.
  destruct e as [tid' idx|tid' cpu|tid' cpu saved]; simpl in Hb, Hx.
  - (* enable *)
    eexists. split; [reflexivity|].
    destruct (decide (tid' = tid)) as [->|Hne].
    + assert (snd (uintr_enable idx (ctx_thread (sys_ctx s tid))) = t) as Hsame.
      { rewrite Ht. unfold uintr_enable. by rewrite Hen. }
      split; [split; [done|split]|].
      * cbn [sys_ctx]. rewrite fn_lookup_insert. by cbn [ctx_thread].
      * intros tid'' Hne Hen''. cbn [sys_ctx] in Hen'' |- *.
        rewrite fn_lookup_insert_ne in Hen'' |- * by done. by apply Hex.
      * intros [Hok|[]]. unfold owner_ok, published, owner_of in Hok |- *.
        cbn [sys_ctx sys_hw]. rewrite fn_lookup_insert.
        cbn [ctx_thread ctx_user]. by rewrite Hsame, <- Ht.
    + split; [split; [done|split]|].
      * cbn [sys_ctx]. by rewrite fn_lookup_insert_ne.
      * intros tid'' Hne'' Hen''. cbn [sys_ctx] in Hen'' |- *.
        destruct (decide (tid' = tid'')) as [<-|Hne3].
        -- rewrite fn_lookup_insert in Hen'' |- *. cbn [ctx_thread] in Hen'' |- *.
           unfold uintr_enable in Hen'' |- *.
           destruct (is_uintr_enabled (ctx_thread (sys_ctx s tid'))) eqn:Hold.
           ++ simpl. by apply Hex.
           ++ simpl. by apply Hx.
        -- rewrite fn_lookup_insert_ne in Hen'' |- * by done. by apply Hex.
      * intros [Hok|[]]. unfold owner_ok, published, owner_of in Hok |- *.
        cbn [sys_ctx sys_hw]. by rewrite fn_lookup_insert_ne.
  - (* set *)
    unfold sys_step. rewrite Hd.
    destruct (uintr_set_mmio d cpu inst (ctx_thread (sys_ctx s tid'))
                (ctx_regs (sys_ctx s tid')) (sys_hw s) Hb) as (h' & -> & Hm).
    cbn [mbind option_bind]. eexists. split; [reflexivity|].
    destruct (decide (tid' = tid)) as [->|Hne].
    + split; [split; [done|split]|].
      * cbn [sys_ctx]. rewrite fn_lookup_insert. by cbn [ctx_thread].
      * intros tid'' Hne Hen''. cbn [sys_ctx] in Hen'' |- *.
        rewrite fn_lookup_insert_ne in Hen'' |- * by done. by apply Hex.
      * intros _. unfold owner_ok, published, owner_of.
        cbn [sys_ctx sys_hw]. rewrite fn_lookup_insert.
        cbn [ctx_thread ctx_user]. rewrite Hm, Ht, Hen.
        by rewrite lookup_insert_eq.
    + split; [split; [done|split]|].
      * cbn [sys_ctx]. by rewrite fn_lookup_insert_ne.
      * intros tid'' Hne'' Hen''. cbn [sys_ctx] in Hen'' |- *.
        destruct (decide (tid' = tid'')) as [<-|Hne3].
        -- rewrite fn_lookup_insert in Hen'' |- *. cbn [ctx_thread] in Hen'' |- *.
           by apply Hex.
        -- rewrite fn_lookup_insert_ne in Hen'' |- * by done. by apply Hex.
      * intros [Hok|Hhook]; [|by destruct Hne].
        unfold owner_ok, published, owner_of in Hok |- *.
        cbn [sys_ctx sys_hw]. rewrite fn_lookup_insert_ne by done.
        rewrite Hm. rewrite Ht in Hok |- *.
        destruct (is_uintr_enabled (ctx_thread (sys_ctx s tid'))) eqn:Hen'; [|done].
        rewrite lookup_insert_ne; [done|]. by apply Hex.
  - (* clear *)
    unfold sys_step. rewrite Hd.
    destruct (uintr_clear_mmio d cpu inst (ctx_thread (sys_ctx s tid'))
                (sys_hw s) Hb) as (h' & -> & Hm).
    cbn [mbind option_bind]. eexists. split; [reflexivity|].
    destruct (decide (tid' = tid)) as [->|Hne].
    + split; [split; [done|split]|].
      * cbn [sys_ctx]. rewrite fn_lookup_insert. by cbn [ctx_thread].
      * intros tid'' Hne Hen''. cbn [sys_ctx] in Hen'' |- *.
        rewrite fn_lookup_insert_ne in Hen'' |- * by done. by apply Hex.
      * intros _. unfold owner_ok, published, owner_of.
        cbn [sys_ctx sys_hw]. rewrite fn_lookup_insert.
        cbn [ctx_thread ctx_user]. rewrite Hm, Ht, Hen.
        by rewrite lookup_insert_eq.
    + split; [split; [done|split]|].
      * cbn [sys_ctx]. by rewrite fn_lookup_insert_ne.
      * intros tid'' Hne'' Hen''. cbn [sys_ctx] in Hen'' |- *.
        destruct (decide (tid' = tid'')) as [<-|Hne3].
        -- rewrite fn_lookup_insert in Hen'' |- *. cbn [ctx_thread] in Hen'' |- *.
           by apply Hex.
        -- rewrite fn_lookup_insert_ne in Hen'' |- * by done. by apply Hex.
      * intros [Hok|Hhook]; [|by destruct Hne].
        unfold owner_ok, published, owner_of in Hok |- *.
        cbn [sys_ctx sys_hw]. rewrite fn_lookup_insert_ne by done.
        rewrite Hm. rewrite Ht in Hok |- *.
        destruct (is_uintr_enabled (ctx_thread (sys_ctx s tid'))) eqn:Hen'; [|done].
        rewrite lookup_insert_ne; [done|]. by apply Hex.
Qed.

Lemma sys_run_settled d inst tid t tr s :
  is_uintr_enabled t = true →
  settled d inst tid t s →
  owner_ok inst s tid →
  Forall (ev_bound d inst) tr →
  Forall (ev_exclusive inst tid (ulq_cpuid_reg (regs inst) (lq_num inst) (lq_idx t))) tr →
  ∃ s', sys_run s tr = Some s' ∧ settled d inst tid t s' ∧ owner_ok inst s' tid.
Proof.
  intros Hen. revert s.
  induction tr as [|e tr IH]; intros s Hs Hok Hb Hx; [by exists s|].
  apply Forall_cons in Hb as [Hb Hbs]. apply Forall_cons in Hx as [Hx Hxs].
  destruct (sys_step_settled d inst tid t s e Hen Hs Hb Hx) as (s1 & Hstep & Hs1 & Hok1).
  simpl. rewrite Hstep. simpl. apply IH; auto.
Qed.

(** C1 (amended). Take a context that is enabled, and let one of its trap
    hooks run.  From then on, in every state reached by further enable, set
    and clear steps of any context, the ownership register of its slot names
    the core on which the context is resident in user mode, and holds the
    all-ones value while it is not resident, provided that every hook runs
    on a core whose user-level handler slot is claimed for the instance and
    that no other enabled context selects the same register. *)
Theorem published_owner_invariant inst s tid hook tr :
  let t := ctx_thread (sys_ctx s tid) in
  let reg := ulq_cpuid_reg (regs inst) (lq_num inst) (lq_idx t) in
  is_uintr_enabled t = true →
  is_hook tid hook →
  ctx_exclusive inst s tid reg →
  Forall (ev_bound (sys_taic s) inst) (hook :: tr) →
  Forall (ev_exclusive inst tid reg) tr →
  ∃ s', sys_run s (hook :: tr) = Some s'
    ∧ ctx_thread (sys_ctx s' tid) = t
    ∧ mmio (sys_hw s') !! reg
      = Some (match ctx_user (sys_ctx s' tid) with
              | Some cpu => Z.of_nat cpu
              | None => NOWHERE
              end).
Proof.
  intros t reg Hen Hhook Hex Hb Hx.
  apply Forall_cons in Hb as [Hb Hbs].
  assert (settled (sys_taic s) inst tid t s) as Hs by done.
  assert (ev_exclusive inst tid reg hook) as Hxh by (by destruct hook).
  destruct (sys_step_settled _ inst tid t s hook Hen Hs Hb Hxh)
    as (s1 & Hstep & Hs1 & Hok1).
  destruct (sys_run_settled _ inst tid t tr s1 Hen Hs1 (Hok1 (or_intror Hhook)) Hbs Hx)
    as (s' & Hrun & (_ & Ht' & _) & Hok').
  exists s'. simpl. rewrite Hstep. simpl. split; [done|]. split; [done|].
  unfold owner_ok, published, owner_of in Hok'. by rewrite Ht' in Hok'.
Qed.

End Ownership.

(** ** The theorems at work on the concrete platform *)

Lemma demo_bound0 : uhandler_bound demo_taic 0 demo_priv.
Proof. exists 0%nat. split; reflexivity. Defined.

Lemma demo_bound1 : uhandler_bound demo_taic 1 demo_priv.
Proof. exists 0%nat. split; reflexivity. Defined.

Lemma taic_ulq_write_cpuid_offset_witness :
  ulq_cpuid_offset 8 (2 ^ 32 + 3) = 0xc038
  ∧ taic_ulq_write_cpuid demo_taic 0 (2 ^ 32 + 3) 1 (sys_hw demo_sys)
    = Some (0, writeq 1 0xffff00000200c038 (sys_hw demo_sys)).
Proof.
  assert (u8_range (lq_num demo_priv)) as Hn by (unfold u8_range; simpl; lia).
  assert (u64_range (2 ^ 32 + 3)) as Hi by (unfold u64_range, u64_mod; lia).
  destruct (taic_ulq_write_cpuid_offset demo_taic 0 demo_priv (2 ^ 32 + 3) 1
              (sys_hw demo_sys) demo_bound0 Hn Hi) as (_ & _ & Hoff & Hw).
  split; [exact Hoff | exact Hw].
Defined.

Lemma taic_publish_release_status_witness :
  taic_ulq_write_cpuid demo_taic 2 3 0 (sys_hw demo_sys)
  = Some (- 22, sys_hw demo_sys)
  ∧ ∃ r h', taic_free_lq demo_taic 0 3 (sys_hw demo_sys) = Some (r, h') ∧ r = 0.
Proof.
  split; [reflexivity|].
  destruct (taic_publish_release_status demo_taic 0 3 0 (sys_hw demo_sys)
              demo_taic_registered)
    as (_ & r & h' & Hf & _ & _ & Hb).
  exists r, h'. split; [exact Hf|]. apply Hb. reflexivity.
Defined.

Lemma uintr_set_disabled_witness :
  ∃ h', uintr_set demo_taic 0 (ThreadStruct false 0) (PtRegs 1 0 0 0 1)
          (HwState ∅ (λ _ _, 0xff) []) = Some h'
    ∧ Z.land (csrs h' 0%nat CSR_UIE) 1 = 0
    ∧ Z.land (csrs h' 0%nat CSR_UIP) 1 = 0.
Proof.
  destruct (uintr_set_disabled demo_taic 0 (ThreadStruct false 0) (PtRegs 1 0 0 0 1)
              (HwState ∅ (λ _ _, 0xff) []) eq_refl) as (h' & Hs & Hie & Hip & _).
  exists h'. split; [exact Hs|]. split; [exact Hie | exact Hip].
Defined.

Lemma uintr_set_armed_witness :
  ∃ h', uintr_set demo_taic 1 (ThreadStruct true 3) (PtRegs 1 0x4000 0x8000 7 0)
          (HwState ∅ (λ _ _, 1) []) = Some h'
    ∧ mmio h' !! demo_reg3 = Some 1
    ∧ csrs h' 1%nat CSR_UIP = 1.
Proof.
  destruct (uintr_set_armed demo_taic 1 demo_priv (ThreadStruct true 3)
              (PtRegs 1 0x4000 0x8000 7 0) (HwState ∅ (λ _ _, 1) [])
              demo_bound1 eq_refl)
    as ((h' & Hs & _ & Hm & _ & _ & _ & _ & _ & Hip) & _).
  exists h'. split; [exact Hs|]. split; [|exact Hip].
  rewrite Hm. apply lookup_insert_eq.
Defined.

Lemma uintr_clear_idempotent_witness :
  ∃ h1 h2, uintr_clear demo_taic 0 (ThreadStruct true 3) (sys_hw demo_sys) = Some h1
    ∧ mmio h1 !! demo_reg3 = Some NOWHERE
    ∧ uintr_clear demo_taic 0 (ThreadStruct true 3) h1 = Some h2
    ∧ mmio h2 = mmio h1.
Proof.
  destruct (uintr_clear_idempotent demo_taic 0 demo_priv (ThreadStruct true 3)
              (sys_hw demo_sys) demo_bound0 eq_refl)
    as ((h1 & h2 & Hc1 & _ & Hm1 & _ & Hc2 & Hm2 & _) & _).
  exists h1, h2. split; [exact Hc1|]. split; [exact Hm1|]. split; [exact Hc2 | exact Hm2].
Defined.

Lemma demo_routes_0 : routes_to demo_platform demo_node 0 ULevel 0.
Proof. exists (OfPhandleArgs 0 0). repeat split; reflexivity || (simpl; lia). Defined.

Lemma taic_init_slot_claimed_once_witness :
  dmesg (taic_init_context demo_platform demo_node 1 demo_taic 0)
  = dmesg demo_taic ++ [WarnHandlerPresent 0]
  ∧ per_cpu_ptr (taic_uhandlers (snd (__taic_init demo_platform demo_node demo_taic))) 0
    = TaicHandler true (Some 0%nat).
Proof.
  destruct (taic_init_slot_claimed_once demo_platform demo_node 1 demo_taic 0 ULevel 0
              demo_routes_0 eq_refl) as (_ & _ & Hlog & _ & Hkeep).
  split; [exact Hlog|]. exact (Hkeep demo_platform demo_node).
Defined.

Lemma demo_all_skipped :
  Forall (context_skipped demo_platform demo_node demo_taic)
         (seq 0 (Z.to_nat (of_irq_count demo_node))).
Proof.
  repeat constructor;
    intros lvl cpu (parent & Hparse & _ & -> & _ & Hcpu);
    simpl in Hparse; injection Hparse as <-; simpl in Hcpu |- *;
    apply (inj Z.of_nat _ (_ : nat)) in Hcpu as <-; reflexivity.
Defined.

Lemma taic_init_succeeds_without_claims_witness :
  fst (__taic_init demo_platform demo_node demo_taic) = 0
  ∧ 0xffff000002000000 ∈ iomem (snd (__taic_init demo_platform demo_node demo_taic))
  ∧ ∀ lvl, handlers lvl (snd (__taic_init demo_platform demo_node demo_taic))
           = handlers lvl demo_taic.
Proof.
  assert (ioremap demo_platform 0x2000000
            (resource_size demo_platform (Resource 0x2000000 0x2ffffff)) ≠ 0)
    as Hmap by (vm_compute; discriminate).
  assert (of_irq_count demo_node ≠ 0) as Hnr by (simpl; lia).
  destruct (taic_init_succeeds_without_claims demo_platform demo_node demo_taic
              (Resource 0x2000000 0x2ffffff) eq_refl eq_refl Hmap Hnr)
    as (Hret & _ & _ & Hio & Hskip).
  split; [exact Hret|]. split; [exact Hio|]. exact (Hskip demo_all_skipped).
Defined.

Lemma published_owner_invariant_witness :
  ∃ s', sys_run demo_armed
          [EvSet 0 0; EvClear 0 0 (PtRegs 1 0 0 0 0); EvEnable 1 4; EvSet 1 0; EvSet 0 1]
        = Some s'
    ∧ ctx_user (sys_ctx s' 0%nat) = Some 1%nat
    ∧ mmio (sys_hw s') !! demo_reg3 = Some 1.
Proof.
  assert (ctx_exclusive demo_priv demo_armed 0 demo_reg3) as Hex.
  { intros tid' Hne Hen. simpl in Hen.
    rewrite fn_lookup_insert_ne in Hen by done. discriminate. }
  assert (Forall (ev_bound demo_taic demo_priv)
            [EvSet 0 0; EvClear 0 0 (PtRegs 1 0 0 0 0); EvEnable 1 4; EvSet 1 0; EvSet 0 1])
    as Hb by (repeat constructor; (exact demo_bound0 || exact demo_bound1)).
  assert (Forall (ev_exclusive demo_priv 0 demo_reg3)
            [EvClear 0 0 (PtRegs 1 0 0 0 0); EvEnable 1 4; EvSet 1 0; EvSet 0 1])
    as Hx by (repeat constructor; intros _; vm_compute; discriminate).
  destruct (published_owner_invariant demo_priv demo_armed 0 (EvSet 0 0)
              [EvClear 0 0 (PtRegs 1 0 0 0 0); EvEnable 1 4; EvSet 1 0; EvSet 0 1]
              eq_refl eq_refl Hex Hb Hx) as (s' & Hrun & Ht & Hreg).
  exists s'. split; [exact Hrun|].
  assert (ctx_user (sys_ctx s' 0%nat) = Some 1%nat) as Hu.
  { vm_compute in Hrun. injection Hrun as <-. reflexivity. }
  split; [exact Hu|]. rewrite Hu in Hreg. exact Hreg.
Defined.

(** C1 as stated fails right after [uintr_enable]: the context is enabled
    and not in user mode, yet the ownership register of its slot still holds
    what it held before (here 0) and not the all-ones value, since enabling
    writes nothing to the hardware. *)
Lemma published_owner_counterexample :
  ∃ s', sys_run demo_sys [EvEnable 0 3] = Some s'
    ∧ is_uintr_enabled (ctx_thread (sys_ctx s' 0%nat)) = true
    ∧ ctx_user (sys_ctx s' 0%nat) = None
    ∧ published demo_priv s' 0 = Some 0
    ∧ ¬ owner_ok demo_priv s' 0.
Proof.
  eexists; (split; [vm_compute; reflexivity|]);
    (split; [reflexivity|]); (split; [reflexivity|]);
    (split; [vm_compute; reflexivity|]);
    unfold owner_ok; vm_compute; discriminate.
Qed.

(** The two provisos of the invariant are needed.  On a core whose
    user-level slot is not claimed (core 2) the publish call fails and the
    register keeps the all-ones value while the context runs there. *)
Lemma published_owner_needs_binding :
  ∃ s', sys_run demo_sys [EvEnable 0 3; EvClear 0 0 (PtRegs 0 0 0 0 0); EvSet 0 2]
        = Some s'
    ∧ ctx_user (sys_ctx s' 0%nat) = Some 2%nat
    ∧ published demo_priv s' 0 = Some NOWHERE.
Proof.
  eexists; (split; [vm_compute; reflexivity|]); split; [reflexivity|].
  vm_compute; reflexivity.
Qed.

(** When two contexts are enabled on the same slot, the register names
    whichever returned to user mode last. *)
Lemma published_owner_needs_single_writer :
  ∃ s', sys_run demo_sys [EvEnable 0 3; EvEnable 1 3; EvSet 0 0; EvSet 1 1] = Some s'
    ∧ ctx_user (sys_ctx s' 0%nat) = Some 0%nat
    ∧ published demo_priv s' 0 = Some 1.
Proof.
  eexists; (split; [vm_compute; reflexivity|]); split; [reflexivity|].
  vm_compute; reflexivity.
Qed.

(** ** More about the loop over the routing entries *)

Section RegistrationLoop.
Context `{KernelHeaders}.

Lemma routes_to_fun pf node i lvl cpu lvl' cpu' :
  routes_to pf node i lvl cpu → routes_to pf node i lvl' cpu' →
  lvl = lvl' ∧ cpu = cpu'.
Proof.
  intros (parent & Hp & _ & Hl & _ & Hc) (parent' & Hp' & _ & Hl' & _ & Hc').
  rewrite Hp in Hp'. injection Hp' as <-.
  split; [congruence|]. apply Nat2Z.inj. congruence.
Qed.

(** Either the entry names a slot, or it fails a check and the loop body
    at most prints a line. *)
Lemma taic_init_context_cases pf node p d i :
  (∃ lvl cpu, routes_to pf node i lvl cpu)
  ∨ ((∀ lvl cpu, ¬ routes_to pf node i lvl cpu)
     ∧ (taic_init_context pf node p d i = d
        ∨ ∃ m, context_msg i m ∧ taic_init_context pf node p d i = pr m d)).
Proof.
  unfold taic_init_context, context_msg.
  destruct (of_irq_parse_one node i) as [parent|] eqn:Hparse.
  2:{ right. split.
      - intros lvl cpu (parent & Hp & _). congruence.
      - right. eexists. split; [|reflexivity]. set_solver. }
  destruct (negb (args0 parent =? IRQ_U_SOFT) && negb (args0 parent =? IRQ_S_SOFT))
    eqn:Hcause.
  { right. split; [|by left].
    intros lvl cpu (parent' & Hp & Hc & _). congruence. }
  destruct (riscv_of_parent_hartid pf (np parent)) as [error hartid] eqn:Hhart.
  destruct (error <? 0) eqn:Herr.
  { right. split.
    - intros lvl cpu (parent' & Hp & _ & _ & He & _).
      rewrite Hparse in Hp. injection Hp as <-. rewrite Hhart in He. simpl in He. lia.
    - right. eexists. split; [|reflexivity]. set_solver. }
  destruct (riscv_hartid_to_cpuid pf hartid <? 0) eqn:Hcpu.
  { right. split.
    - intros lvl cpu (parent' & Hp & _ & _ & _ & Hc).
      rewrite Hparse in Hp. injection Hp as <-. rewrite Hhart in Hc. simpl in Hc. lia.
    - right. eexists. split; [|reflexivity]. set_solver. }
  left. exists (if args0 parent =? IRQ_U_SOFT then ULevel else SLevel),
               (Z.to_nat (riscv_hartid_to_cpuid pf hartid)).
  exists parent. rewrite Hhart. simpl. repeat split; try done; lia.
Qed.

Lemma routes_to_dec pf node i lvl cpu :
  routes_to pf node i lvl cpu ∨ ¬ routes_to pf node i lvl cpu.
Proof.
  destruct (taic_init_context_cases pf node 0%nat taic_boot i)
    as [(lvl' & cpu' & Hr)|[Hno _]]; [|right; apply Hno].
  destruct (decide (lvl' = lvl)) as [->|Hl];
    [destruct (decide (cpu' = cpu)) as [->|Hc]|].
  - by left.
  - right. intros Hr'. by destruct (routes_to_fun _ _ _ _ _ _ _ Hr Hr').
  - right. intros Hr'. by destruct (routes_to_fun _ _ _ _ _ _ _ Hr Hr').
Qed.

Lemma mask_of_cpumask_set_cpu lvl lvl' c q :
  mask_of lvl' (cpumask_set_cpu lvl c q)
  = if decide (lvl' = lvl) then {[c]} ∪ mask_of lvl q else mask_of lvl' q.
Proof. by destruct lvl, lvl'. Qed.

(** *** One entry *)

(** The instance: only its masks grow, by the core the entry names. *)
Lemma taic_init_context_masks pf node p d i q :
  kmem d !! p = Some q →
  ∃ q', kmem (taic_init_context pf node p d i) !! p = Some q'
    ∧ regs q' = regs q ∧ lq_num q' = lq_num q ∧ gq_num q' = gq_num q
    ∧ start q' = start q ∧ size q' = size q
    ∧ ∀ lvl cpu, cpu ∈ mask_of lvl q'
                 ↔ cpu ∈ mask_of lvl q ∨ routes_to pf node i lvl cpu.
Proof.
  intros Hq.
  destruct (taic_init_context_cases pf node p d i)
    as [(lvl & c & Hr)|[Hno Hd]].
  - rewrite (taic_init_context_routed _ _ _ _ _ _ _ Hr). simpl.
    exists (cpumask_set_cpu lvl c q).
    split.
    { destruct (present _); [|rewrite kmem_handler_store]; simpl;
        by rewrite lookup_alter_eq, Hq. }
    repeat split; try by destruct lvl.
    + rewrite mask_of_cpumask_set_cpu. case_decide as Hl.
      * subst lvl0. rewrite elem_of_union, elem_of_singleton.
        intros [->|Hin]; [by right | by left].
      * by left.
    + rewrite mask_of_cpumask_set_cpu. intros [Hin|Hr'].
      * case_decide; [|done]. set_solver.
      * destruct (routes_to_fun _ _ _ _ _ _ _ Hr Hr') as [<- <-].
        rewrite decide_True by done. set_solver.
  - exists q. split.
    { destruct Hd as [->|(m & _ & ->)]; done. }
    repeat split; try done.
    + by left.
    + intros [Hin|Hr]; [done|]. by destruct (Hno _ _ Hr).
Qed.

(** Other objects of the heap are not touched. *)
Lemma taic_init_context_other pf node p d i r :
  r ≠ p → kmem (taic_init_context pf node p d i) !! r = kmem d !! r.
Proof.
  intros Hne.
  destruct (taic_init_context_outcome pf node p d i) as [m| |lvl c _ _|lvl c _ _].
  - done.
  - done.
  - simpl. by rewrite lookup_alter_ne.
  - rewrite kmem_handler_store. simpl. by rewrite lookup_alter_ne.
Qed.

(** The slot [(lvl, cpu)]: claimed for [p] when the entry names it and it
    is free, and left alone otherwise. *)
Lemma taic_init_context_slot pf node p d i lvl cpu :
  (routes_to pf node i lvl cpu
   ∧ present (per_cpu_ptr (handlers lvl d) cpu) = false
   ∧ handlers lvl (taic_init_context pf node p d i) !! cpu = Some (claimed_by p))
  ∨ ((¬ routes_to pf node i lvl cpu
      ∨ present (per_cpu_ptr (handlers lvl d) cpu) = true)
     ∧ handlers lvl (taic_init_context pf node p d i) !! cpu = handlers lvl d !! cpu).
Proof.
  destruct (taic_init_context_cases pf node p d i)
    as [(lvl' & c & Hr)|[Hno Hd]].
  - rewrite (taic_init_context_routed _ _ _ _ _ _ _ Hr). simpl.
    destruct (present (per_cpu_ptr (handlers lvl' d) c)) eqn:Hp.
    + right. rewrite handlers_pr, handlers_priv_update. split; [|done].
      destruct (routes_to_dec pf node i lvl cpu) as [Hr'|Hn]; [|by left].
      destruct (routes_to_fun _ _ _ _ _ _ _ Hr Hr') as [<- <-]. by right.
    + rewrite handlers_handler_store, !handlers_priv_update.
      destruct (routes_to_dec pf node i lvl cpu) as [Hr'|Hn].
      * destruct (routes_to_fun _ _ _ _ _ _ _ Hr Hr') as [<- <-].
        left. rewrite decide_True by done. by rewrite lookup_insert_eq.
      * right. split; [by left|].
        case_decide as Hl; [|done]. subst lvl'.
        rewrite lookup_insert_ne; [done|]. by intros ->.
  - right. split; [left; apply Hno|].
    destruct Hd as [->|(m & _ & ->)]; [done|]. by rewrite handlers_pr.
Qed.

(** The log grows by at most one line, about this entry. *)
Lemma taic_init_context_log pf node p d i :
  ∃ msgs, dmesg (taic_init_context pf node p d i) = dmesg d ++ msgs
    ∧ (length msgs ≤ 1)%nat ∧ Forall (context_msg i) msgs.
Proof.
  destruct (taic_init_context_cases pf node p d i)
    as [(lvl & c & Hr)|[Hno Hd]].
  - rewrite (taic_init_context_routed _ _ _ _ _ _ _ Hr). simpl.
    destruct (present _).
    + exists [WarnHandlerPresent i]. simpl. split; [done|]. split; [lia|].
      constructor; [|done]. unfold context_msg. set_solver.
    + exists []. rewrite app_nil_r. split; [by destruct lvl|].
      split; [simpl; lia | constructor].
  - destruct Hd as [->|(m & Hm & ->)].
    + exists []. rewrite app_nil_r. split; [done|].
      split; [simpl; lia | constructor].
    + exists [m]. simpl. split; [done|]. split; [lia|]. by constructor.
Qed.

(** *** The whole loop *)

Lemma taic_init_contexts_masks pf node p ixs d q :
  kmem d !! p = Some q →
  ∃ q', kmem (taic_init_contexts pf node p ixs d) !! p = Some q'
    ∧ regs q' = regs q ∧ lq_num q' = lq_num q ∧ gq_num q' = gq_num q
    ∧ start q' = start q ∧ size q' = size q
    ∧ ∀ lvl cpu, cpu ∈ mask_of lvl q'
                 ↔ cpu ∈ mask_of lvl q ∨ ∃ i, i ∈ ixs ∧ routes_to pf node i lvl cpu.
Proof.
  revert d q. induction ixs as [|i ixs IH]; intros d q Hq.
  - exists q. repeat split; try done.
    + by left.
    + intros [Hin|(i & Hi & _)]; [done|]. by apply elem_of_nil in Hi.
  - simpl.
    destruct (taic_init_context_masks pf node p d i q Hq)
      as (q1 & Hq1 & Hr1 & Hl1 & Hg1 & Hs1 & Hz1 & Hm1).
    destruct (IH _ _ Hq1) as (q2 & Hq2 & Hr2 & Hl2 & Hg2 & Hs2 & Hz2 & Hm2).
    exists q2. repeat split; try congruence.
    + intros Hin. apply Hm2 in Hin as [Hin|(j & Hj & Hr)].
      * apply Hm1 in Hin as [Hin|Hr]; [by left|].
        right. exists i. split; [apply elem_of_cons; by left | done].
      * right. exists j. split; [apply elem_of_cons; by right | done].
    + intros [Hin|(j & Hj & Hr)]; apply Hm2.
      * left. apply Hm1. by left.
      * apply elem_of_cons in Hj as [->|Hj].
        -- left. apply Hm1. by right.
        -- right. by exists j.
Qed.

Lemma taic_init_contexts_other pf node p ixs d r :
  r ≠ p → kmem (taic_init_contexts pf node p ixs d) !! r = kmem d !! r.
Proof.
  intros Hne. revert d. induction ixs as [|i ixs IH]; intros d; [done|].
  simpl. rewrite IH. by apply taic_init_context_other.
Qed.

Lemma per_cpu_ptr_lookup tbl tbl' cpu :
  tbl' !! cpu = tbl !! cpu → per_cpu_ptr tbl' cpu = per_cpu_ptr tbl cpu.
Proof. unfold per_cpu_ptr. by intros ->. Qed.

Lemma taic_init_contexts_slot pf node p ixs d lvl cpu :
  ((∃ i, i ∈ ixs ∧ routes_to pf node i lvl cpu)
   ∧ present (per_cpu_ptr (handlers lvl d) cpu) = false
   ∧ handlers lvl (taic_init_contexts pf node p ixs d) !! cpu = Some (claimed_by p))
  ∨ (((∀ i, i ∈ ixs → ¬ routes_to pf node i lvl cpu)
      ∨ present (per_cpu_ptr (handlers lvl d) cpu) = true)
     ∧ handlers lvl (taic_init_contexts pf node p ixs d) !! cpu = handlers lvl d !! cpu).
Proof.
  revert d. induction ixs as [|i ixs IH]; intros d.
  - right. split; [|done]. left. intros i Hi. by apply elem_of_nil in Hi.
  - simpl.
    destruct (taic_init_context_slot pf node p d i lvl cpu)
      as [(Hr & Hfree & Hl)|(Hwhy & Hl)].
    + left. split; [exists i; split; [apply elem_of_cons; by left | done]|].
      split; [done|].
      by apply taic_init_contexts_keeps.
    + pose proof (per_cpu_ptr_lookup _ _ _ Hl) as Hpcp.
      destruct (IH (taic_init_context pf node p d i))
        as [((j & Hj & Hr) & Hfree & Hl')|(Hwhy' & Hl')].
      * left. split; [exists j; split; [apply elem_of_cons; by right | done]|].
        split; [by rewrite <- Hpcp | done].
      * right. split; [|by rewrite Hl'].
        rewrite Hpcp in Hwhy'.
        destruct Hwhy as [Hn|Hp]; [|by right].
        destruct Hwhy' as [Hn'|Hp']; [|by right].
        left. intros j Hj. apply elem_of_cons in Hj as [->|Hj]; auto.
Qed.

Lemma taic_init_contexts_log pf node p ixs d :
  ∃ msgs, dmesg (taic_init_contexts pf node p ixs d) = dmesg d ++ msgs
    ∧ (length msgs ≤ length ixs)%nat
    ∧ Forall (λ m, ∃ i, i ∈ ixs ∧ context_msg i m) msgs.
Proof.
  revert d. induction ixs as [|i ixs IH]; intros d.
  - exists []. rewrite app_nil_r. split; [done|]. split; [simpl; lia | constructor].
  - simpl.
    destruct (taic_init_context_log pf node p d i) as (m1 & Hd1 & Hn1 & Hf1).
    destruct (IH (taic_init_context pf node p d i)) as (m2 & Hd2 & Hn2 & Hf2).
    exists (m1 ++ m2). rewrite Hd2, Hd1, app_assoc. split; [done|].
    split; [rewrite length_app; simpl; lia|].
    apply Forall_app. split.
    + eapply Forall_impl; [exact Hf1|]. intros m Hm. exists i.
      split; [apply elem_of_cons; by left | done].
    + eapply Forall_impl; [exact Hf2|]. intros m (j & Hj & Hm). exists j.
      split; [apply elem_of_cons; by right | done].
Qed.

(** *** The state in which the loop starts *)

Lemma __taic_init_prepared pf node d res :
  kzalloc_ok pf = true →
  of_address_to_resource node = Some res →
  ioremap pf (res_start res) (resource_size pf res) ≠ 0 →
  of_irq_count node ≠ 0 →
  let p := fresh (dom (kmem d)) in
  let base := ioremap pf (res_start res) (resource_size pf res) in
  let gq := default DEFAULT_GQ_NUM (of_read_gq_num node) in
  let lq := default DEFAULT_LQ_NUM (of_read_lq_num node) in
  ∃ d0,
    __taic_init pf node d
    = (0, pr (InfoAvailable gq lq)
             (taic_init_contexts pf node p (seq 0 (Z.to_nat (of_irq_count node))) d0))
    ∧ (∀ lvl, handlers lvl d0 = handlers lvl d)
    ∧ kmem d0
      = <[p := TaicPriv ∅ ∅ base (res_start res) (resource_size pf res) lq gq]> (kmem d)
    ∧ iomem d0 = {[base]} ∪ iomem d
    ∧ dmesg d0
      = dmesg d ++ default_warning WarnGqNumDefault (of_read_gq_num node)
                ++ default_warning WarnLqNumDefault (of_read_lq_num node).
Proof.
  intros Hk Hres Hmap Hnr p base gq lq.
  unfold __taic_init, kzalloc. rewrite Hk, Hres.
  fold p. fold base.
  apply Z.eqb_neq in Hmap. fold base in Hmap. rewrite Hmap.
  apply Z.eqb_neq in Hnr.
  subst gq lq.
  destruct (of_read_gq_num node) as [g|], (of_read_lq_num node) as [l|];
    simpl; rewrite Hnr; eexists; (split; [reflexivity|]);
    (split; [by intros []|]); simpl; rewrite !alter_insert_eq;
    rewrite ?app_nil_r, <- ?app_assoc; done.
Qed.

(** ** What a registration leaves behind *)

(** X1. The status of [__taic_init] is decided by the first step that
    fails: -ENOMEM without memory, -EIO without the register resource or when
    the window cannot be mapped, -EINVAL for a node without routing entries,
    and 0 otherwise, whatever the entries say.  A failed registration leaves
    both handler tables and the heap exactly as they were and adds no
    mapping. *)
Theorem taic_init_status_and_cleanup pf node d :
  let r := __taic_init pf node d in
  fst r
  = (if kzalloc_ok pf then
       match of_address_to_resource node with
       | None => - EIO
       | Some res =>
         if ioremap pf (res_start res) (resource_size pf res) =? 0 then - EIO
         else if of_irq_count node =? 0 then - EINVAL else 0
       end
     else - ENOMEM)
  ∧ fst r ≤ 0
  ∧ (fst r ≠ 0 →
     (∀ lvl, handlers lvl (snd r) = handlers lvl d)
     ∧ kmem (snd r) = kmem d
     ∧ iomem (snd r) ⊆ iomem d).
Proof.
  pose proof EINVAL_pos. pose proof ENOMEM_pos. pose proof EIO_pos.
  pose proof (fresh_kmem_None d) as Hfresh.
  unfold __taic_init, kzalloc.
  destruct (kzalloc_ok pf); [|simpl; split; [done|split; [lia|done]]].
  destruct (of_address_to_resource node) as [res|].
  2:{ simpl. split; [done|]. split; [lia|]. intros _. split; [by intros []|].
      split; [by rewrite delete_insert_id | done]. }
  destruct (ioremap pf (res_start res) (resource_size pf res) =? 0) eqn:Hmap.
  { simpl. split; [done|]. split; [lia|]. intros _. split; [by intros []|].
    split; [|done]. rewrite !alter_insert_eq. by rewrite delete_insert_id. }
  destruct (of_irq_count node =? 0) eqn:Hnr.
  - destruct (of_read_gq_num node) as [g|], (of_read_lq_num node) as [l|];
      simpl; (split; [done|]); (split; [lia|]); intros _;
      (split; [by intros []|]);
      (split; [rewrite !alter_insert_eq; by rewrite delete_insert_id |]);
      intros x Hx; apply elem_of_difference in Hx as [Hx Hnx];
      apply elem_of_union in Hx as [Hx|Hx]; done.
  - destruct (of_read_gq_num node) as [g|], (of_read_lq_num node) as [l|];
      simpl; (split; [done|]); (split; [lia|]); intros Hne; by destruct Hne.
Qed.

(** X2. A successful registration leaves the new instance with the mapped
    base, the start and size of the resource, and the capacities of the node,
    8 local and 4 global queues standing in for a missing lq-num or gq-num.
    The log grows by one warning for each missing capacity, then at most one
    line for each routing entry, then the closing line with the
    capacities. *)
Theorem taic_init_instance_and_log pf node d res :
  kzalloc_ok pf = true →
  of_address_to_resource node = Some res →
  ioremap pf (res_start res) (resource_size pf res) ≠ 0 →
  of_irq_count node ≠ 0 →
  let r := __taic_init pf node d in
  let p := fresh (dom (kmem d)) in
  let gq := default 4 (of_read_gq_num node) in
  let lq := default 8 (of_read_lq_num node) in
  ∃ q msgs,
    kmem (snd r) !! p = Some q
    ∧ regs q = ioremap pf (res_start res) (resource_size pf res)
    ∧ start q = res_start res ∧ size q = resource_size pf res
    ∧ lq_num q = lq ∧ gq_num q = gq
    ∧ dmesg (snd r)
      = dmesg d ++ default_warning WarnGqNumDefault (of_read_gq_num node)
                ++ default_warning WarnLqNumDefault (of_read_lq_num node)
                ++ msgs ++ [InfoAvailable gq lq]
    ∧ (length msgs ≤ Z.to_nat (of_irq_count node))%nat
    ∧ Forall (λ m, ∃ i, (i < Z.to_nat (of_irq_count node))%nat ∧ context_msg i m) msgs.
Proof.
  intros Hk Hres Hmap Hnr r p gq lq.
  destruct (__taic_init_prepared pf node d res Hk Hres Hmap Hnr)
    as (d0 & Hrun & _ & Hm & _ & Hlog).
  fold p in Hrun, Hm. subst r. rewrite Hrun. simpl.
  assert (kmem d0 !! p = Some (TaicPriv ∅ ∅
            (ioremap pf (res_start res) (resource_size pf res))
            (res_start res) (resource_size pf res)
            (default DEFAULT_LQ_NUM (of_read_lq_num node))
            (default DEFAULT_GQ_NUM (of_read_gq_num node)))) as Hq
    by (rewrite Hm; apply lookup_insert_eq).
  destruct (taic_init_contexts_masks pf node p
              (seq 0 (Z.to_nat (of_irq_count node))) d0 _ Hq)
    as (q & Hq' & Hr & Hl & Hg & Hs & Hz & _).
  destruct (taic_init_contexts_log pf node p
              (seq 0 (Z.to_nat (of_irq_count node))) d0)
    as (msgs & Hd & Hlen & Hall).
  exists q, msgs. rewrite length_seq in Hlen.
  repeat split; try done.
  - rewrite Hd, Hlog. by rewrite <- !app_assoc.
  - eapply Forall_impl; [exact Hall|]. intros m (i & Hi & Hmsg).
    exists i. split; [|done]. apply elem_of_seq in Hi. lia.
Qed.

(** X3. After a successful registration every slot that some routing entry
    names is claimed: a slot that was free belongs to the new instance, a slot
    that was taken keeps its handler.  A slot that no entry names is
    unchanged. *)
Theorem taic_init_slots pf node d res lvl cpu :
  kzalloc_ok pf = true →
  of_address_to_resource node = Some res →
  ioremap pf (res_start res) (resource_size pf res) ≠ 0 →
  of_irq_count node ≠ 0 →
  let d' := snd (__taic_init pf node d) in
  let p := fresh (dom (kmem d)) in
  let named := ∃ i, (i < Z.to_nat (of_irq_count node))%nat ∧ routes_to pf node i lvl cpu in
  let old := per_cpu_ptr (handlers lvl d) cpu in
  (named → present (per_cpu_ptr (handlers lvl d') cpu) = true
           ∧ per_cpu_ptr (handlers lvl d') cpu
             = if present old then old else claimed_by p)
  ∧ (¬ named → handlers lvl d' !! cpu = handlers lvl d !! cpu).
Proof.
  intros Hk Hres Hmap Hnr d' p named old.
  destruct (__taic_init_prepared pf node d res Hk Hres Hmap Hnr)
    as (d0 & Hrun & Hh & _).
  fold p in Hrun. subst d'. rewrite Hrun. simpl. rewrite handlers_pr.
  destruct (taic_init_contexts_slot pf node p
              (seq 0 (Z.to_nat (of_irq_count node))) d0 lvl cpu)
    as [((i & Hi & Hr) & Hfree & Hl)|(Hwhy & Hl)];
    rewrite ?Hh in Hl.
  - rewrite Hh in Hfree. split.
    + intros _. unfold per_cpu_ptr at 1 2. rewrite Hl. simpl.
      subst old. by rewrite Hfree.
    + intros Hn. destruct Hn. exists i. split; [|done]. apply elem_of_seq in Hi. lia.
  - rewrite Hh in Hwhy. split; [|done].
    intros (i & Hi & Hr).
    destruct Hwhy as [Hn|Hp].
    + destruct (Hn i); [apply elem_of_seq; lia | done].
    + rewrite (per_cpu_ptr_lookup _ _ _ Hl). subst old. by rewrite Hp.
Qed.

(** X4. After a successful registration a core is in the user-level (or
    supervisor-level) mask of the new instance exactly when some routing
    entry names that core at that level, whether or not the slot could be
    claimed. *)
Theorem taic_init_masks pf node d res :
  kzalloc_ok pf = true →
  of_address_to_resource node = Some res →
  ioremap pf (res_start res) (resource_size pf res) ≠ 0 →
  of_irq_count node ≠ 0 →
  ∃ q, kmem (snd (__taic_init pf node d)) !! fresh (dom (kmem d)) = Some q
    ∧ ∀ lvl cpu,
        cpu ∈ mask_of lvl q
        ↔ ∃ i, (i < Z.to_nat (of_irq_count node))%nat ∧ routes_to pf node i lvl cpu.
Proof.
  intros Hk Hres Hmap Hnr.
  destruct (__taic_init_prepared pf node d res Hk Hres Hmap Hnr)
    as (d0 & Hrun & _ & Hm & _).
  rewrite Hrun. simpl.
  set (p := fresh (dom (kmem d))) in *.
  assert (kmem d0 !! p = Some (TaicPriv ∅ ∅
            (ioremap pf (res_start res) (resource_size pf res))
            (res_start res) (resource_size pf res)
            (default DEFAULT_LQ_NUM (of_read_lq_num node))
            (default DEFAULT_GQ_NUM (of_read_gq_num node)))) as Hq
    by (rewrite Hm; apply lookup_insert_eq).
  destruct (taic_init_contexts_masks pf node p
              (seq 0 (Z.to_nat (of_irq_count node))) d0 _ Hq)
    as (q & Hq' & _ & _ & _ & _ & _ & Hmask).
  exists q. split; [done|]. intros lvl cpu. rewrite Hmask. split.
  - intros [Hin|(i & Hi & Hr)]; [by destruct lvl|].
    exists i. split; [|done]. apply elem_of_seq in Hi. lia.
  - intros (i & Hi & Hr). right. exists i. split; [|done]. apply elem_of_seq. lia.
Qed.

Lemma __taic_init_heap_kept pf node d r q :
  kmem d !! r = Some q → kmem (snd (__taic_init pf node d)) !! r = Some q.
Proof.
  intros Hq.
  destruct (__taic_init_cases pf node d) as [(Hk & res & Hres & Hmap & Hnr)|(_ & _ & Hm)];
    [|by rewrite Hm].
  destruct (__taic_init_prepared pf node d res Hk Hres Hmap Hnr)
    as (d0 & Hrun & _ & Hm & _).
  rewrite Hrun. simpl.
  assert (r ≠ fresh (dom (kmem d))) as Hne.
  { intros ->. rewrite fresh_kmem_None in Hq. discriminate. }
  rewrite taic_init_contexts_other by done.
  rewrite Hm. by rewrite lookup_insert_ne.
Qed.

(** X5. No registration changes or frees an instance that is already in
    the heap, and a successful one keeps every mapping that was live and adds
    its own. *)
Theorem taic_init_heap_frame pf node d r q :
  kmem d !! r = Some q →
  let d' := snd (__taic_init pf node d) in
  kmem d' !! r = Some q
  ∧ r ≠ fresh (dom (kmem d))
  ∧ (fst (__taic_init pf node d) = 0 →
     iomem d ⊆ iomem d'
     ∧ ∃ res, of_address_to_resource node = Some res
              ∧ ioremap pf (res_start res) (resource_size pf res) ∈ iomem d').
Proof.
  intros Hq d'. split; [by apply __taic_init_heap_kept|]. split.
  { intros ->. rewrite fresh_kmem_None in Hq. discriminate. }
  intros Hok.
  destruct (__taic_init_cases pf node d) as [(Hk & res & Hres & Hmap & Hnr)|(Hneg & _)];
    [|lia].
  destruct (__taic_init_prepared pf node d res Hk Hres Hmap Hnr)
    as (d0 & Hrun & _ & _ & Hio & _).
  subst d'. rewrite Hrun. simpl.
  rewrite (proj2 (taic_init_contexts_dom pf node _ _ d0)), Hio.
  split; [apply union_subseteq_r|].
  exists res. split; [done|]. by apply elem_of_union_l, elem_of_singleton.
Qed.

Lemma __taic_init_bound_kept pf node d cpu inst :
  uhandler_bound d cpu inst →
  uhandler_bound (snd (__taic_init pf node d)) cpu inst.
Proof.
  intros (p0 & Hh & Hk). exists p0. split; [|by apply __taic_init_heap_kept].
  assert (present (per_cpu_ptr (taic_uhandlers d) cpu) = true) as Hp by by rewrite Hh.
  pose proof (per_cpu_ptr_present _ _ Hp) as Hl.
  pose proof (__taic_init_keeps pf node d ULevel cpu _ Hl Hp) as Hl'.
  simpl in Hl'. unfold per_cpu_ptr at 1. rewrite Hl'. simpl. exact Hh.
Qed.

(** X6. A later registration, of whatever node and with whatever result,
    does not disturb an established binding: the core stays bound to the same
    instance, and publish and release go to the same registers as before. *)
Theorem taic_init_keeps_binding pf node d cpu inst :
  uhandler_bound d cpu inst →
  let d' := snd (__taic_init pf node d) in
  uhandler_bound d' cpu inst
  ∧ (∀ idx v h, taic_ulq_write_cpuid d' cpu idx v h = taic_ulq_write_cpuid d cpu idx v h)
  ∧ (∀ idx h, taic_free_lq d' cpu idx h = taic_free_lq d cpu idx h).
Proof.
  intros Hb d'.
  pose proof (__taic_init_bound_kept pf node d cpu inst Hb) as Hb'.
  split; [done|]. split.
  - intros idx v h.
    by rewrite !(taic_ulq_write_cpuid_bound _ _ inst) by done.
  - intros idx h. unfold taic_free_lq.
    destruct Hb as (p0 & -> & Hk). destruct Hb' as (p1 & Hh1 & Hk1).
    fold d' in Hh1. rewrite Hh1. simpl. fold d' in Hk1. by rewrite Hk, Hk1.
Qed.

(** X7. Registration followed by publication: when a node with a routing
    entry for the user level of [cpu] registers while that slot is free, a
    publish call on [cpu] succeeds and writes to the slot register inside the
    window just mapped, with the capacity of that node (8 when lq-num is
    missing). *)
Theorem taic_init_then_publish pf node d res i cpu idx v h :
  kzalloc_ok pf = true →
  of_address_to_resource node = Some res →
  ioremap pf (res_start res) (resource_size pf res) ≠ 0 →
  of_irq_count node ≠ 0 →
  (i < Z.to_nat (of_irq_count node))%nat →
  routes_to pf node i ULevel cpu →
  present (per_cpu_ptr (taic_uhandlers d) cpu) = false →
  let base := ioremap pf (res_start res) (resource_size pf res) in
  let lq := default 8 (of_read_lq_num node) in
  taic_ulq_write_cpuid (snd (__taic_init pf node d)) cpu idx v h
  = Some (0, writeq v (ulq_cpuid_reg base lq idx) h).
Proof.
  intros Hk Hres Hmap Hnr Hi Hr Hfree base lq.
  destruct (__taic_init_prepared pf node d res Hk Hres Hmap Hnr)
    as (d0 & Hrun & Hh & Hm & _).
  set (p := fresh (dom (kmem d))) in *.
  set (ixs := seq 0 (Z.to_nat (of_irq_count node))) in *.
  assert (kmem d0 !! p = Some (TaicPriv ∅ ∅ base (res_start res)
            (resource_size pf res) lq
            (default DEFAULT_GQ_NUM (of_read_gq_num node)))) as Hq
    by (rewrite Hm; apply lookup_insert_eq).
  destruct (taic_init_contexts_masks pf node p ixs d0 _ Hq)
    as (q & Hq' & Hregs & Hlq & _).
  destruct (taic_init_contexts_slot pf node p ixs d0 ULevel cpu)
    as [(_ & _ & Hl)|([Hn|Hp] & _)].
  - rewrite (taic_ulq_write_cpuid_bound _ _ q).
    + by rewrite Hregs, Hlq.
    + exists p. rewrite Hrun. simpl. split; [|done].
      simpl in Hl. unfold per_cpu_ptr. by rewrite Hl.
  - destruct (Hn i); [apply elem_of_seq; lia | done].
  - rewrite Hh in Hp. simpl in Hp. congruence.
Qed.

(** What holds of every handler in the tables. *)
Lemma registered_handlers d :
  registered d →
  ∀ lvl cpu hd, handlers lvl d !! cpu = Some hd →
    present hd = true
    ∧ ∃ p q, priv hd = Some p ∧ kmem d !! p = Some q
             ∧ regs q ≠ 0 ∧ cpu ∈ mask_of lvl q.
Proof.
  induction 1 as [|pf node d Hreg IH]; intros lvl cpu hd Hl.
  { destruct lvl; simpl in Hl; by rewrite lookup_empty in Hl. }
  destruct (__taic_init_cases pf node d) as [(Hk & res & Hres & Hmap & Hnr)|(_ & Hh & Hm)].
  2:{ rewrite Hh in Hl. rewrite Hm. by apply IH. }
  destruct (__taic_init_prepared pf node d res Hk Hres Hmap Hnr)
    as (d0 & Hrun & Hh & Hm & _).
  rewrite Hrun in Hl |- *. simpl in Hl |- *. rewrite handlers_pr in Hl.
  set (p := fresh (dom (kmem d))) in *.
  set (ixs := seq 0 (Z.to_nat (of_irq_count node))) in *.
  destruct (taic_init_contexts_slot pf node p ixs d0 lvl cpu)
    as [((i & Hi & Hr) & _ & Hl')|(_ & Hl')]; rewrite Hl' in Hl.
  - injection Hl as <-. split; [done|].
    assert (kmem d0 !! p = Some (TaicPriv ∅ ∅
              (ioremap pf (res_start res) (resource_size pf res))
              (res_start res) (resource_size pf res)
              (default DEFAULT_LQ_NUM (of_read_lq_num node))
              (default DEFAULT_GQ_NUM (of_read_gq_num node)))) as Hq
      by (rewrite Hm; apply lookup_insert_eq).
    destruct (taic_init_contexts_masks pf node p ixs d0 _ Hq)
      as (q & Hq' & Hregs & _ & _ & _ & _ & Hmask).
    exists p, q. repeat split; try done.
    + by rewrite Hregs.
    + apply Hmask. right. by exists i.
  - rewrite Hh in Hl.
    destruct (IH lvl cpu hd Hl) as (Hp & p0 & q0 & Hpriv & Hk0 & Hregs & Hin).
    split; [done|]. exists p0, q0. repeat split; try done.
    assert (p0 ≠ p) as Hne.
    { intros ->. subst p. rewrite fresh_kmem_None in Hk0. discriminate. }
    rewrite taic_init_contexts_other by done.
    rewrite Hm. by rewrite lookup_insert_ne.
Qed.

(** X8. In every driver state that registrations can produce, a slot whose
    present flag is set points to a live instance with a mapped (non-NULL)
    register window whose mask for that level contains the core; and a slot
    whose flag is clear has a NULL instance pointer. *)
Theorem registered_slot_invariant d lvl cpu :
  registered d →
  let hd := per_cpu_ptr (handlers lvl d) cpu in
  (present hd = true →
   ∃ p q, priv hd = Some p ∧ kmem d !! p = Some q
          ∧ regs q ≠ 0 ∧ cpu ∈ mask_of lvl q)
  ∧ (present hd = false → priv hd = None ∧ handlers lvl d !! cpu = None).
Proof.
  intros Hreg hd. subst hd. unfold per_cpu_ptr.
  destruct (handlers lvl d !! cpu) as [hd|] eqn:Hl; simpl.
  - destruct (registered_handlers d Hreg lvl cpu hd Hl) as (Hp & Hrest).
    split; [done|]. intros Hf. congruence.
  - split; [discriminate | done].
Qed.

End RegistrationLoop.

(** ** The layout of the ownership registers *)

Lemma ulq_cpuid_offset_slot n idx :
  u64_range idx → u8_range n →
  ulq_cpuid_offset n idx = 0x1038 + 0x1000 * slot_number n idx
  ∧ 0 ≤ slot_number n idx < 2 ^ 41.
Proof.
  intros Hi Hn.
  destruct (ulq_slot_exact n idx Hi Hn) as [Heq Hb].
  rewrite (ulq_cpuid_offset_exact n idx Hi Hn).
  unfold slot_number, LQ_OFFSET, LQ_SIZE. rewrite Heq in Hb. split; lia.
Qed.

Lemma ptr_add_inj base a b :
  0 ≤ a < u64_mod → 0 ≤ b < u64_mod →
  ptr_add base a = ptr_add base b → a = b.
Proof.
  unfold ptr_add, wrap64, u64_mod. intros Ha Hb Heq.
  pose proof (Z.div_mod (base + a) (2 ^ 64) ltac:(lia)) as Hda.
  pose proof (Z.div_mod (base + b) (2 ^ 64) ltac:(lia)) as Hdb.
  rewrite Heq in Hda. lia.
Qed.

Lemma ulq_cpuid_reg_slot_iff base n i j :
  u8_range n → u64_range i → u64_range j →
  ulq_cpuid_reg base n i = ulq_cpuid_reg base n j
  ↔ slot_number n i = slot_number n j.
Proof.
  intros Hn Hi Hj.
  destruct (ulq_cpuid_offset_slot n i Hi Hn) as [Hoi Hbi].
  destruct (ulq_cpuid_offset_slot n j Hj Hn) as [Hoj Hbj].
  rewrite !ulq_cpuid_reg_offset. split.
  - intros Heq. apply ptr_add_inj in Heq; unfold u64_mod; lia.
  - intros Heq. by rewrite Hoi, Hoj, Heq.
Qed.

(** X9. Two indices select the same ownership register exactly when they
    have the same slot number [idx_high * lq_num + idx_low]; registers of
    different slots lie 0x1000 bytes or more apart and every one is 8-byte
    aligned within the window.  The two-level index is therefore not
    injective: index [lq_num] and index [1 << 32] name the same register. *)
Theorem ulq_cpuid_reg_same_slot base n i j :
  u8_range n → u64_range i → u64_range j →
  (ulq_cpuid_reg base n i = ulq_cpuid_reg base n j
   ↔ slot_number n i = slot_number n j)
  ∧ (slot_number n i ≠ slot_number n j →
     0x1000 ≤ Z.abs (ulq_cpuid_offset n i - ulq_cpuid_offset n j))
  ∧ ulq_cpuid_offset n i mod 8 = 0
  ∧ ulq_cpuid_reg base n n = ulq_cpuid_reg base n (2 ^ 32).
Proof.
  intros Hn Hi Hj.
  destruct (ulq_cpuid_offset_slot n i Hi Hn) as [Hoi Hbi].
  destruct (ulq_cpuid_offset_slot n j Hj Hn) as [Hoj Hbj].
  split; [by apply ulq_cpuid_reg_slot_iff|].
  rewrite !ulq_cpuid_reg_offset.
  split; [|split].
  - intros Hne. lia.
  - rewrite Hoi. replace (0x1038 + 0x1000 * slot_number n i)
      with ((0x207 + 0x200 * slot_number n i) * 8) by lia.
    apply Z.mod_mul. lia.
  - assert (u64_range n) as Hn64 by (unfold u64_range, u8_range, u64_mod in *; lia).
    assert (u64_range (2 ^ 32)) as H32 by (unfold u64_range, u64_mod; lia).
    destruct (ulq_cpuid_offset_slot n n Hn64 Hn) as [-> _].
    destruct (ulq_cpuid_offset_slot n (2 ^ 32) H32 Hn) as [-> _].
    do 2 f_equal. unfold slot_number, u8_range in *.
    rewrite (Z.shiftr_div_pow2 n), (Z.shiftr_div_pow2 (2 ^ 32)) by lia.
    rewrite (Z.div_small n) by lia.
    change (2 ^ 32 `div` 2 ^ 32) with 1.
    change (Z.land (2 ^ 32) 0xffffffff) with 0.
    change 0xffffffff with (Z.ones 32). rewrite Z.land_ones by lia.
    rewrite Z.mod_small by lia. lia.
Qed.

Section Protocol.
Context `{KernelHeaders}.

Lemma free_reg_not_owner base n idx :
  u8_range n → u64_range idx →
  ptr_add base 0x8 ≠ ulq_cpuid_reg base n idx.
Proof.
  intros Hn Hi Heq. rewrite ulq_cpuid_reg_offset in Heq.
  destruct (ulq_cpuid_offset_slot n idx Hi Hn) as [Ho Hb].
  apply ptr_add_inj in Heq; unfold u64_mod; lia.
Qed.

(** X10. The release register and the ownership registers never coincide:
    a release stores the index at offset 8 of the window and leaves the
    published owner of every slot as it was, and a publication leaves the
    release register as it was. *)
Theorem taic_free_lq_keeps_owners d cpu inst idx idx' v h :
  uhandler_bound d cpu inst → u8_range (lq_num inst) → u64_range idx' →
  let owner := ulq_cpuid_reg (regs inst) (lq_num inst) idx' in
  let release := ptr_add (regs inst) 0x8 in
  (∃ h', taic_free_lq d cpu idx h = Some (0, h')
     ∧ mmio h' !! release = Some idx
     ∧ mmio h' !! owner = mmio h !! owner)
  ∧ (∃ h', taic_ulq_write_cpuid d cpu idx' v h = Some (0, h')
     ∧ mmio h' !! owner = Some v
     ∧ mmio h' !! release = mmio h !! release).
Proof.
  intros Hb Hn Hi owner release.
  pose proof (free_reg_not_owner (regs inst) (lq_num inst) idx' Hn Hi) as Hne.
  fold owner release in Hne.
  split.
  - destruct Hb as (p & Hh & Hk). unfold taic_free_lq. rewrite Hh. simpl. rewrite Hk. simpl.
    eexists. split; [reflexivity|]. simpl. fold release.
    split; [apply lookup_insert_eq | by apply lookup_insert_ne].
  - rewrite (taic_ulq_write_cpuid_bound _ _ _ _ _ _ Hb). fold owner.
    eexists. split; [reflexivity|]. simpl.
    split; [apply lookup_insert_eq | by apply lookup_insert_ne].
Qed.

(** X11. What is published can be read back: after a publication the
    register of the slot holds the value written, the register of every other
    slot holds what it held, and publications to two different slots give the
    same registers in either order. *)
Theorem taic_ulq_write_cpuid_read_back d cpu inst i j v w h :
  uhandler_bound d cpu inst → u8_range (lq_num inst) →
  u64_range i → u64_range j →
  slot_number (lq_num inst) i ≠ slot_number (lq_num inst) j →
  let reg k := ulq_cpuid_reg (regs inst) (lq_num inst) k in
  ∃ h1 h2 h12 h21,
    taic_ulq_write_cpuid d cpu i v h = Some (0, h1)
    ∧ taic_ulq_write_cpuid d cpu j w h = Some (0, h2)
    ∧ taic_ulq_write_cpuid d cpu j w h1 = Some (0, h12)
    ∧ taic_ulq_write_cpuid d cpu i v h2 = Some (0, h21)
    ∧ mmio h1 !! reg i = Some v
    ∧ mmio h1 !! reg j = mmio h !! reg j
    ∧ mmio h12 !! reg i = Some v
    ∧ mmio h12 !! reg j = Some w
    ∧ mmio h12 = mmio h21.
Proof.
  intros Hb Hn Hi Hj Hne reg.
  assert (reg i ≠ reg j) as Hreg.
  { intros Heq. apply Hne.
    by apply (ulq_cpuid_reg_slot_iff (regs inst) (lq_num inst) i j Hn Hi Hj). }
  pose proof (λ idx u h0, taic_ulq_write_cpuid_bound d cpu inst idx u h0 Hb) as Hw.
  eexists _, _, _, _. rewrite !Hw. repeat split; simpl; fold (reg i) (reg j).
  - apply lookup_insert_eq.
  - by apply lookup_insert_ne.
  - rewrite lookup_insert_ne by done. apply lookup_insert_eq.
  - apply lookup_insert_eq.
  - by apply insert_insert_ne.
Qed.

End Protocol.

(** ** More about the trap hooks *)

Lemma csr_update_lookup hart r v f hart' r' :
  csr_update hart r v f hart' r'
  = if decide (r = r') then (if decide (hart = hart') then v else f hart' r')
    else f hart' r'.
Proof.
  unfold csr_update.
  destruct (decide (hart = hart')) as [<-|Hh].
  - rewrite fn_lookup_insert.
    destruct (decide (r = r')) as [<-|Hr].
    + by rewrite fn_lookup_insert.
    + by rewrite fn_lookup_insert_ne.
  - rewrite fn_lookup_insert_ne by done. by case_decide.
Qed.

Lemma land_not64_bit v m n :
  0 ≤ n < 64 → Z.testbit m n = false →
  Z.testbit (Z.land v (not64 m)) n = Z.testbit v n.
Proof.
  intros Hn Hm. rewrite Z.land_spec. unfold not64, wrap64, u64_mod.
  rewrite Z.mod_pow2_bits_low by lia. rewrite Z.lnot_spec by lia.
  rewrite Hm. simpl. apply andb_true_r.
Qed.

Lemma land_not64_idem v m : Z.land (Z.land v (not64 m)) (not64 m) = Z.land v (not64 m).
Proof. by rewrite <- Z.land_assoc, Z.land_diag. Qed.

Lemma lor_absorb a b : Z.lor a (Z.lor a b) = Z.lor a b.
Proof. by rewrite Z.lor_assoc, Z.lor_diag. Qed.

Lemma lor_idem_r a b : Z.lor (Z.lor a b) b = Z.lor a b.
Proof. by rewrite <- Z.lor_assoc, Z.lor_diag. Qed.

Section Hooks.
Context `{KernelHeaders}.

(** In a well-formed state a core either has no user-level slot or is bound
    to some instance. *)
Lemma uhandler_absent_or_bound d cpu :
  handlers_wf d →
  present (per_cpu_ptr (taic_uhandlers d) cpu) = false
  ∨ ∃ inst, uhandler_bound d cpu inst.
Proof.
  intros Hwf.
  destruct (present (per_cpu_ptr (taic_uhandlers d) cpu)) eqn:Hp; [right|by left].
  destruct (Hwf ULevel cpu _ (per_cpu_ptr_present _ _ Hp) Hp) as (p & Hpriv & Hdom).
  apply elem_of_dom in Hdom as [inst Hinst].
  exists inst, p. split; [|done].
  destruct (per_cpu_ptr (taic_uhandlers d) cpu) as [pr0 pv]. simpl in *. congruence.
Qed.

(** X12. On a core without a user-level handler slot the hooks go on
    silently: [uintr_clear] leaves the hardware exactly as it was, and
    [uintr_set] for an enabled thread writes no device register but still sets
    the delegation bit and restores UIE, UEPC, UTVEC, USCRATCH and UIP. *)
Theorem uintr_hooks_on_unbound_core d cpu t rg h :
  present (per_cpu_ptr (taic_uhandlers d) cpu) = false →
  uintr_clear d cpu t h = Some h
  ∧ ∃ h', uintr_set d cpu t rg h = Some h'
      ∧ mmio h' = mmio h
      ∧ (is_uintr_enabled t = true →
         hw_trace h'
         = hw_trace h ++ [CsrSet cpu CSR_SIDELEG IE_USIE;
                          CsrWrite cpu CSR_UIE (uie rg);
                          CsrWrite cpu CSR_UEPC (uepc rg);
                          CsrWrite cpu CSR_UTVEC (utvec rg);
                          CsrWrite cpu CSR_USCRATCH (uscratch rg);
                          CsrRead cpu CSR_UIP (csrs h cpu CSR_UIP);
                          CsrWrite cpu CSR_UIP (Z.lor (uip rg) (csrs h cpu CSR_UIP))]
         ∧ csrs h' cpu CSR_UIE = uie rg
         ∧ csrs h' cpu CSR_UIP = Z.lor (uip rg) (csrs h cpu CSR_UIP)).
Proof.
  intros Habs. split.
  - unfold uintr_clear. destruct (is_uintr_enabled t); simpl; [|done].
    by rewrite (taic_ulq_write_cpuid_absent _ _ _ _ _ Habs).
  - unfold uintr_set. destruct (is_uintr_enabled t); simpl.
    + rewrite (taic_ulq_write_cpuid_absent _ _ _ _ _ Habs). simpl.
      eexists. split; [reflexivity|]. simpl. split; [done|]. intros _.
      rewrite !csr_update_lookup. simpl.
      rewrite !decide_True by done.
      split; [by rewrite <- !app_assoc | done].
    + eexists. split; [reflexivity|]. simpl. split; [done|]. discriminate.
Qed.

(** The hooks never fault in a state that registrations produce. *)
Lemma uintr_set_registered d cpu t rg h :
  registered d →
  ∃ h', uintr_set d cpu t rg h = Some h'
    ∧ ∀ hart r, hart ≠ cpu → csrs h' hart r = csrs h hart r.
Proof.
  intros Hreg.
  assert (∃ r0 h0, taic_ulq_write_cpuid d cpu (lq_idx t) (Z.of_nat cpu)
                     (csr_set cpu CSR_SIDELEG IE_USIE h) = Some (r0, h0)
                   ∧ csrs h0 = csrs (csr_set cpu CSR_SIDELEG IE_USIE h)) as (r0 & h0 & Hw & Hc).
  { destruct (uhandler_absent_or_bound d cpu (registered_wf d Hreg)) as [Habs|(inst & Hb)].
    - rewrite (taic_ulq_write_cpuid_absent _ _ _ _ _ Habs). by eexists _, _.
    - rewrite (taic_ulq_write_cpuid_bound _ _ _ _ _ _ Hb). by eexists _, _. }
  unfold uintr_set. destruct (is_uintr_enabled t); simpl.
  - rewrite Hw. simpl. eexists. split; [reflexivity|]. simpl.
    intros hart r Hne. rewrite Hc. simpl.
    rewrite !csr_update_lookup. repeat case_decide; congruence.
  - eexists. split; [reflexivity|]. simpl.
    intros hart r Hne.
    rewrite !csr_update_lookup. repeat case_decide; congruence.
Qed.

Lemma uintr_clear_registered d cpu t h :
  registered d →
  ∃ h', uintr_clear d cpu t h = Some h' ∧ csrs h' = csrs h.
Proof.
  intros Hreg. unfold uintr_clear.
  destruct (is_uintr_enabled t); simpl; [|by eexists].
  destruct (uhandler_absent_or_bound d cpu (registered_wf d Hreg)) as [Habs|(inst & Hb)].
  - rewrite (taic_ulq_write_cpuid_absent _ _ _ _ _ Habs). by eexists.
  - rewrite (taic_ulq_write_cpuid_bound _ _ _ _ _ _ Hb). by eexists.
Qed.

(** X13. [uintr_set] is idempotent on the hardware: run a second time with
    the same saved registers it leaves every device register and every CSR of
    every hart as the first run left them, for enabled and disabled threads
    and for bound and unbound cores alike. *)
Theorem uintr_set_idempotent d cpu t rg h :
  registered d →
  ∃ h1 h2,
    uintr_set d cpu t rg h = Some h1
    ∧ uintr_set d cpu t rg h1 = Some h2
    ∧ mmio h2 = mmio h1
    ∧ ∀ hart r, csrs h2 hart r = csrs h1 hart r.
Proof.
  intros Hreg.
  assert (∃ f g, (∀ h0, ∃ r0, taic_ulq_write_cpuid d cpu (lq_idx t) (Z.of_nat cpu) h0
                               = Some (r0, HwState (f (mmio h0)) (csrs h0)
                                                   (hw_trace h0 ++ g)))
                 ∧ ∀ m, f (f m) = f m) as (f & g & Hw & Hf).
  { destruct (uhandler_absent_or_bound d cpu (registered_wf d Hreg)) as [Habs|(inst & Hb)].
    - exists (λ m, m), []. split; [|done]. intros h0.
      rewrite (taic_ulq_write_cpuid_absent _ _ _ _ _ Habs).
      exists (- EINVAL). rewrite app_nil_r. by destruct h0.
    - exists (λ m, <[ulq_cpuid_reg (regs inst) (lq_num inst) (lq_idx t) := Z.of_nat cpu]> m).
      eexists. split; [|intros m; apply insert_insert_eq]. intros h0.
      rewrite (taic_ulq_write_cpuid_bound _ _ _ _ _ _ Hb). by exists 0. }
  unfold uintr_set. destruct (is_uintr_enabled t); simpl.
  - destruct (Hw (csr_set cpu CSR_SIDELEG IE_USIE h)) as (r1 & ->). simpl.
    eexists _, _. split; [reflexivity|].
    match goal with |- context [taic_ulq_write_cpuid d cpu _ _ ?hh] =>
      destruct (Hw hh) as (r2 & ->) end.
    simpl. split; [reflexivity|]. simpl. split; [apply Hf|].
    intros hart r. rewrite !csr_update_lookup.
    destruct (decide (cpu = hart)) as [<-|Hne]; destruct r; simpl;
      rewrite ?decide_True by done; try done.
    + apply lor_idem_r.
    + apply lor_absorb.
  - eexists _, _. split; [reflexivity|]. split; [reflexivity|]. simpl.
    split; [done|].
    intros hart r. rewrite !csr_update_lookup.
    destruct (decide (cpu = hart)) as [<-|Hne]; destruct r; simpl;
      rewrite ?decide_True by done; try done.
    + apply lor_idem_r.
    + apply land_not64_idem.
    + apply land_not64_idem.
Qed.

(** X14. The hooks of one hart never change a CSR of another hart, and
    [uintr_clear] changes no CSR at all.  For a thread that is not enabled
    [uintr_set] changes nothing but the delegation bits of SIDELEG, which it
    sets, and the same bits of UIE and UIP, which it clears: every other bit
    of the 64 and the registers UEPC, UTVEC and USCRATCH keep their
    values. *)
Theorem uintr_hooks_csr_frame d cpu t rg h :
  registered d →
  ∃ hs hc,
    uintr_set d cpu t rg h = Some hs
    ∧ uintr_clear d cpu t h = Some hc
    ∧ csrs hc = csrs h
    ∧ (∀ hart r, hart ≠ cpu → csrs hs hart r = csrs h hart r)
    ∧ (∀ n, Z.testbit (csrs hs cpu CSR_SIDELEG) n
            = Z.testbit (csrs h cpu CSR_SIDELEG) n || Z.testbit IE_USIE n)
    ∧ (is_uintr_enabled t = false →
       csrs hs cpu CSR_UEPC = csrs h cpu CSR_UEPC
       ∧ csrs hs cpu CSR_UTVEC = csrs h cpu CSR_UTVEC
       ∧ csrs hs cpu CSR_USCRATCH = csrs h cpu CSR_USCRATCH
       ∧ ∀ n, 0 ≤ n < 64 → Z.testbit IE_USIE n = false →
           Z.testbit (csrs hs cpu CSR_UIE) n = Z.testbit (csrs h cpu CSR_UIE) n
           ∧ Z.testbit (csrs hs cpu CSR_UIP) n = Z.testbit (csrs h cpu CSR_UIP) n).
Proof.
  intros Hreg.
  destruct (uintr_set_registered d cpu t rg h Hreg) as (hs & Hs & Hother).
  destruct (uintr_clear_registered d cpu t h Hreg) as (hc & Hc & Hcsr).
  exists hs, hc. split; [done|]. split; [done|]. split; [done|]. split; [done|].
  unfold uintr_set in Hs. destruct (is_uintr_enabled t); simpl in Hs.
  - destruct (taic_ulq_write_cpuid d cpu (lq_idx t) (Z.of_nat cpu)
                (csr_set cpu CSR_SIDELEG IE_USIE h)) as [[r0 h0]|] eqn:Hw;
      [|discriminate].
    assert (csrs h0 = csrs (csr_set cpu CSR_SIDELEG IE_USIE h)) as Hc0.
    { unfold taic_ulq_write_cpuid in Hw.
      destruct (negb (present _)); [by injection Hw as <- <-|].
      destruct (deref_priv d _); simpl in Hw; [|discriminate].
      by injection Hw as <- <-. }
    simpl in Hs. injection Hs as <-. simpl. split; [|discriminate].
    intros n. rewrite !csr_update_lookup. simpl. rewrite Hc0. simpl.
    rewrite csr_update_lookup. rewrite !decide_True by done. apply Z.lor_spec.
  - injection Hs as <-. simpl. split.
    + intros n. rewrite !csr_update_lookup. simpl.
      rewrite !decide_True by done. apply Z.lor_spec.
    + intros _. rewrite !csr_update_lookup. simpl.
      rewrite !decide_True by done.
      repeat split; try done; by apply land_not64_bit.
Qed.

End Hooks.

(** ** Contexts over whole runs *)

Section Runs.
Context `{KernelHeaders}.

Lemma sys_step_registered s e :
  registered (sys_taic s) →
  ∃ s', sys_step s e = Some s'
    ∧ sys_taic s' = sys_taic s
    ∧ (∀ tid, is_uintr_enabled (ctx_thread (sys_ctx s tid)) = true →
              ctx_thread (sys_ctx s' tid) = ctx_thread (sys_ctx s tid))
    ∧ (∀ tid, is_uintr_enabled (ctx_thread (sys_ctx s' tid)) = true →
              is_uintr_enabled (ctx_thread (sys_ctx s tid)) = true
              ∨ e = EvEnable tid (lq_idx (ctx_thread (sys_ctx s' tid)))).
Proof.
  intros Hreg. destruct e as [tid idx|tid cpu|tid cpu saved]; simpl.
  - eexists. split; [reflexivity|]. split; [done|]. simpl. split.
    + intros tid' Hen. destruct (decide (tid = tid')) as [<-|Hne].
      * rewrite fn_lookup_insert. simpl. unfold uintr_enable. by rewrite Hen.
      * by rewrite fn_lookup_insert_ne.
    + intros tid'. destruct (decide (tid = tid')) as [<-|Hne].
      * rewrite fn_lookup_insert. simpl. unfold uintr_enable.
        destruct (is_uintr_enabled (ctx_thread (sys_ctx s tid))); simpl; [by left|].
        intros _. by right.
      * rewrite fn_lookup_insert_ne by done. by left.
  - destruct (uintr_set_registered (sys_taic s) cpu (ctx_thread (sys_ctx s tid))
                (ctx_regs (sys_ctx s tid)) (sys_hw s) Hreg) as (h' & -> & _).
    simpl. eexists. split; [reflexivity|]. split; [done|]. simpl.
    split; intros tid'; (destruct (decide (tid = tid')) as [<-|Hne];
      [rewrite fn_lookup_insert | rewrite fn_lookup_insert_ne by done]); simpl; auto.
  - destruct (uintr_clear_registered (sys_taic s) cpu (ctx_thread (sys_ctx s tid))
                (sys_hw s) Hreg) as (h' & -> & _).
    simpl. eexists. split; [reflexivity|]. split; [done|]. simpl.
    split; intros tid'; (destruct (decide (tid = tid')) as [<-|Hne];
      [rewrite fn_lookup_insert | rewrite fn_lookup_insert_ne by done]); simpl; auto.
Qed.

(** X15. On a registered driver state no sequence of enable, set and clear
    steps faults.  Nothing in it disables a context or rebinds its slot: a
    context that is enabled stays enabled with the index it has, and a
    context that ends up enabled either was enabled at the start or was the
    subject of an enable call with the index it now holds. *)
Theorem sys_run_registered s tr :
  registered (sys_taic s) →
  ∃ s', sys_run s tr = Some s'
    ∧ sys_taic s' = sys_taic s
    ∧ (∀ tid, is_uintr_enabled (ctx_thread (sys_ctx s tid)) = true →
              ctx_thread (sys_ctx s' tid) = ctx_thread (sys_ctx s tid))
    ∧ (∀ tid, is_uintr_enabled (ctx_thread (sys_ctx s' tid)) = true →
              is_uintr_enabled (ctx_thread (sys_ctx s tid)) = true
              ∨ EvEnable tid (lq_idx (ctx_thread (sys_ctx s' tid))) ∈ tr).
Proof.
  revert s. induction tr as [|e tr IH]; intros s Hreg.
  - exists s. simpl. repeat split; auto.
  - destruct (sys_step_registered s e Hreg) as (s1 & Hstep & Hd1 & Hkeep1 & Horig1).
    assert (registered (sys_taic s1)) as Hreg1 by by rewrite Hd1.
    destruct (IH s1 Hreg1) as (s' & Hrun & Hd' & Hkeep & Horig).
    exists s'. simpl. rewrite Hstep. simpl.
    split; [done|]. split; [congruence|]. split.
    + intros tid Hen. rewrite Hkeep; rewrite Hkeep1; done.
    + intros tid Hen. destruct (Horig tid Hen) as [Hen1|Hin].
      * destruct (Horig1 tid Hen1) as [Hen0| ->]; [by left|].
        right. rewrite (Hkeep tid Hen1). apply elem_of_cons. by left.
      * right. apply elem_of_cons. by right.
Qed.

Lemma sys_step_disabled_hook s e :
  is_hook (ev_tid e) e →
  is_uintr_enabled (ctx_thread (sys_ctx s (ev_tid e))) = false →
  ∃ s' evs, sys_step s e = Some s'
    ∧ mmio (sys_hw s') = mmio (sys_hw s)
    ∧ hw_trace (sys_hw s') = hw_trace (sys_hw s) ++ evs
    ∧ Forall (λ ev, ∀ a v, ev ≠ MmioWriteq a v) evs
    ∧ ∀ tid, ctx_thread (sys_ctx s' tid) = ctx_thread (sys_ctx s tid).
Proof.
  destruct e as [tid idx|tid cpu|tid cpu saved]; simpl; intros Hhook Hdis; [done| |].
  - unfold uintr_set. rewrite Hdis. simpl. eexists _, _. split; [reflexivity|]. simpl.
    split; [done|]. split; [by rewrite <- !app_assoc|]. split.
    + repeat constructor; discriminate.
    + intros tid'. destruct (decide (tid = tid')) as [<-|Hne];
        [by rewrite fn_lookup_insert | by rewrite fn_lookup_insert_ne].
  - unfold uintr_clear. rewrite Hdis. simpl. eexists _, []. split; [reflexivity|]. simpl.
    split; [done|]. split; [by rewrite app_nil_r|]. split; [constructor|].
    intros tid'. destruct (decide (tid = tid')) as [<-|Hne];
      [by rewrite fn_lookup_insert | by rewrite fn_lookup_insert_ne].
Qed.

(** X16. Contexts that never enabled user interrupts never reach the
    controller: whatever the driver state, a run of trap hooks of contexts
    that are not enabled completes, leaves every device register as it was
    and contains no device write; only CSRs are accessed. *)
Theorem disabled_hooks_write_no_register s tr :
  Forall (λ e, is_hook (ev_tid e) e
               ∧ is_uintr_enabled (ctx_thread (sys_ctx s (ev_tid e))) = false) tr →
  ∃ s' evs, sys_run s tr = Some s'
    ∧ mmio (sys_hw s') = mmio (sys_hw s)
    ∧ hw_trace (sys_hw s') = hw_trace (sys_hw s) ++ evs
    ∧ Forall (λ ev, ∀ a v, ev ≠ MmioWriteq a v) evs.
Proof.
  revert s. induction tr as [|e tr IH]; intros s Hall.
  - exists s, []. simpl. rewrite app_nil_r. repeat split; auto.
  - apply Forall_cons in Hall as [[Hhook Hdis] Hall].
    destruct (sys_step_disabled_hook s e Hhook Hdis)
      as (s1 & ev1 & Hstep & Hm1 & Ht1 & Hf1 & Hth).
    destruct (IH s1) as (s' & ev2 & Hrun & Hm & Ht & Hf).
    { eapply Forall_impl; [exact Hall|]. intros e' [Hh Hd]. split; [done|].
      by rewrite Hth. }
    exists s', (ev1 ++ ev2). simpl. rewrite Hstep. simpl.
    split; [done|]. split; [congruence|].
    split; [by rewrite Ht, Ht1, app_assoc|]. by apply Forall_app.
Qed.

End Runs.

(** ** The register helpers of the system monitor *)

Lemma lxor_ffff_low v : (Z.lxor v 0xFFFF) mod 2 ^ 16 = 0xFFFF - v mod 2 ^ 16.
Proof.
  assert (0 ≤ v mod 2 ^ 16 < 2 ^ 16) as Hr by (apply Z.mod_pos_bound; lia).
  assert ((Z.lxor v 0xFFFF) mod 2 ^ 16 = Z.lxor (v mod 2 ^ 16) 0xFFFF) as ->.
  { change 0xFFFF with (Z.ones 16).
    apply Z.bits_inj'. intros n Hn.
    destruct (Z_lt_le_dec n 16) as [Hlt|Hge].
    - rewrite Z.mod_pow2_bits_low by lia.
      rewrite !Z.lxor_spec. by rewrite Z.mod_pow2_bits_low by lia.
    - rewrite Z.mod_pow2_bits_high by lia.
      rewrite Z.lxor_spec, Z.mod_pow2_bits_high by lia.
      by rewrite Z.ones_spec_high by lia. }
  assert (Z.land (v mod 2 ^ 16) (Z.lxor (v mod 2 ^ 16) 0xFFFF) = 0) as Hdisj.
  { change 0xFFFF with (Z.ones 16).
    apply Z.bits_inj'. intros n Hn.
    rewrite Z.land_spec, Z.lxor_spec, Z.bits_0.
    destruct (Z_lt_le_dec n 16) as [Hlt|Hge].
    - rewrite Z.ones_spec_low by lia. by destruct (Z.testbit (v mod 2 ^ 16) n).
    - by rewrite Z.mod_pow2_bits_high by lia. }
  pose proof (Z.add_nocarry_lxor _ _ Hdisj) as Hadd.
  rewrite <- Z.lxor_assoc, Z.lxor_nilpotent, Z.lxor_0_l in Hadd.
  lia.
Qed.

Lemma twoscomp_neg v : Sysmon.twoscomp v = (- v) mod 2 ^ 16.
Proof.
  unfold Sysmon.twoscomp. change 0x0000FFFF with (Z.ones 16).
  rewrite Z.land_ones by lia.
  rewrite <- Zplus_mod_idemp_l, lxor_ffff_low.
  pose proof (Z.div_mod v (2 ^ 16) ltac:(lia)) as Hdm.
  replace (0xFFFF - v mod 2 ^ 16 + 1) with (- (v mod 2 ^ 16) + 1 * 2 ^ 16) by lia.
  replace (- v) with (- (v mod 2 ^ 16) + (- (v `div` 2 ^ 16)) * 2 ^ 16) by lia.
  by rewrite !Z_mod_plus_full.
Qed.

Lemma opp_mod_pos v : 0 < v < 2 ^ 16 → (- v) mod 2 ^ 16 = 2 ^ 16 - v.
Proof. intros Hv. symmetry. apply (Z.mod_unique_pos _ _ (-1)); lia. Qed.

(** X17. [twoscomp] is negation modulo 2^16, whatever the width of its
    argument: the result is a 16-bit value that adds up with the argument to
    a multiple of 2^16.  On 16-bit values it is its own inverse, and 0 and
    0x8000 are the only values it leaves unchanged. *)
Theorem twoscomp_involution v :
  Sysmon.twoscomp v = (- v) mod 2 ^ 16
  ∧ 0 ≤ Sysmon.twoscomp v < 2 ^ 16
  ∧ (Sysmon.twoscomp v + v) mod 2 ^ 16 = 0
  ∧ (0 ≤ v < 2 ^ 16 →
     Sysmon.twoscomp (Sysmon.twoscomp v) = v
     ∧ (Sysmon.twoscomp v = v ↔ v = 0 ∨ v = 0x8000)).
Proof.
  rewrite !twoscomp_neg.
  split; [done|]. split; [apply Z.mod_pos_bound; lia|]. split.
  - rewrite Zplus_mod_idemp_l. by replace (- v + v) with 0 by lia.
  - intros Hv. destruct (decide (v = 0)) as [->|Hnz].
    + split; [done|]. split; [by left | done].
    + rewrite (opp_mod_pos v) by lia. split.
      * rewrite opp_mod_pos by lia. lia.
      * split; [intros Heq; right; lia | intros [->| ->]; done].
Qed.

(** X18. [REG32_OFFSET] and [REG32_SHIFT] split a bit number into the byte
    offset of its 32-bit register and the bit position inside it: the two put
    together give the bit number back, the offset is word aligned, and bit
    [b] of word [w] is mapped to offset [4 * w] and shift [b]. *)
Theorem reg32_split address :
  8 * Sysmon.REG32_OFFSET address + Sysmon.REG32_SHIFT address = address
  ∧ Sysmon.REG32_OFFSET address mod 4 = 0
  ∧ (0 ≤ address →
     0 ≤ Sysmon.REG32_OFFSET address ∧ 0 ≤ Sysmon.REG32_SHIFT address < 32)
  ∧ (∀ w b, 0 ≤ w → 0 ≤ b < 32 →
       Sysmon.REG32_OFFSET (32 * w + b) = 4 * w ∧ Sysmon.REG32_SHIFT (32 * w + b) = b).
Proof.
  unfold Sysmon.REG32_OFFSET, Sysmon.REG32_SHIFT.
  pose proof (Z.quot_rem' address 32) as Hqr.
  split; [lia|]. split; [by rewrite Z.mul_comm, Z.mod_mul|]. split.
  - intros Hge. rewrite Z.quot_div_nonneg, Z.rem_mod_nonneg by lia.
    pose proof (Z.mod_pos_bound address 32 ltac:(lia)).
    pose proof (Z.div_pos address 32 Hge ltac:(lia)). lia.
  - intros w b Hw Hb.
    rewrite Z.quot_div_nonneg, Z.rem_mod_nonneg by lia.
    replace (32 * w + b) with (b + w * 32) by lia.
    rewrite Z.div_add, Z_mod_plus_full by lia.
    rewrite Z.div_small, Z.mod_small by lia. lia.
Qed.

(** X19. [compare] is a strict comparison: no value compares with itself,
    two values never compare both ways, and two different values compare one
    way or the other.  When neither value has bit 15 set it tests whether the
    value is above the threshold, otherwise whether it is below. *)
Theorem compare_strict val thresh :
  Sysmon.compare val val = false
  ∧ (Sysmon.compare val thresh = true → Sysmon.compare thresh val = false)
  ∧ (val ≠ thresh →
     Sysmon.compare val thresh = true ∨ Sysmon.compare thresh val = true)
  ∧ (Z.land val 0x8000 = 0 → Z.land thresh 0x8000 = 0 →
     Sysmon.compare val thresh = (thresh <? val))
  ∧ (Z.land val 0x8000 ≠ 0 ∨ Z.land thresh 0x8000 ≠ 0 →
     Sysmon.compare val thresh = (val <? thresh)).
Proof.
  unfold Sysmon.compare.
  destruct (Z.eqb_spec (Z.land val 0x8000) 0) as [Hv|Hv];
    destruct (Z.eqb_spec (Z.land thresh 0x8000) 0) as [Ht|Ht]; simpl;
    (split; [apply Z.ltb_irrefl|]);
    (split; [rewrite !Z.ltb_lt, Z.ltb_ge; lia|]);
    (split; [rewrite !Z.ltb_lt; lia|]);
    (split; [try done; intros; congruence|]);
    try done; intros [?|?]; congruence.
Qed.

(** ** The invariant from the enable call on *)

Section FromEnable.
Context `{KernelHeaders}.

(** X20. If the ownership register of a slot holds the all-ones value when
    a context in the kernel enables user interrupts on that slot, then the
    register names the core on which the context is resident, or holds the
    all-ones value while it is not resident, in every state from the enable
    call on, under the same provisos on bound cores and on other contexts. *)
Theorem published_owner_from_enable inst s tid idx tr :
  let reg := ulq_cpuid_reg (regs inst) (lq_num inst) idx in
  is_uintr_enabled (ctx_thread (sys_ctx s tid)) = false →
  ctx_user (sys_ctx s tid) = None →
  mmio (sys_hw s) !! reg = Some NOWHERE →
  ctx_exclusive inst s tid reg →
  Forall (ev_bound (sys_taic s) inst) tr →
  Forall (ev_exclusive inst tid reg) tr →
  ∃ s', sys_run s (EvEnable tid idx :: tr) = Some s'
    ∧ ctx_thread (sys_ctx s' tid) = ThreadStruct true idx
    ∧ mmio (sys_hw s') !! reg
      = Some (match ctx_user (sys_ctx s' tid) with
              | Some cpu => Z.of_nat cpu
              | None => NOWHERE
              end).
Proof.
  intros reg Hdis Huser Hreg Hex Hb Hx.
  set (s1 := System (sys_taic s) (sys_hw s)
               (<[tid := Ctx (ThreadStruct true idx) (ctx_regs (sys_ctx s tid))
                             (ctx_user (sys_ctx s tid))]> (sys_ctx s))).
  assert (sys_step s (EvEnable tid idx) = Some s1) as Hstep.
  { simpl. unfold uintr_enable. by rewrite Hdis. }
  assert (settled (sys_taic s) inst tid (ThreadStruct true idx) s1) as Hs1.
  { split; [done|]. split.
    - simpl. by rewrite fn_lookup_insert.
    - intros tid' Hne Hen. simpl in Hen |- *.
      rewrite fn_lookup_insert_ne in Hen |- * by done. by apply Hex. }
  assert (owner_ok inst s1 tid) as Hok1.
  { unfold owner_ok, published, owner_of. simpl. rewrite fn_lookup_insert. simpl.
    by rewrite Huser. }
  destruct (sys_run_settled _ inst tid (ThreadStruct true idx) tr s1 eq_refl Hs1 Hok1 Hb Hx)
    as (s' & Hrun & (_ & Ht' & _) & Hok').
  exists s'. cbn [sys_run]. rewrite Hstep. simpl. split; [done|]. split; [done|].
  unfold owner_ok, published, owner_of in Hok'. by rewrite Ht' in Hok'.
Qed.

End FromEnable.

(** ** The further theorems on the concrete platform *)

Lemma demo_maps :
  ioremap demo_platform 0x2000000
    (resource_size demo_platform (Resource 0x2000000 0x2ffffff)) ≠ 0.
Proof. vm_compute. discriminate. Defined.

Lemma demo_has_entries : of_irq_count demo_node ≠ 0.
Proof. simpl. lia. Defined.

Lemma demo_routes_2 : routes_to demo_platform demo_node 2 ULevel 1.
Proof. exists (OfPhandleArgs 1 0). repeat split; reflexivity || (simpl; lia). Defined.

Lemma taic_init_status_and_cleanup_witness :
  fst (__taic_init demo_platform demo_node_empty demo_taic) = - 22
  ∧ kmem (snd (__taic_init demo_platform demo_node_empty demo_taic)) = kmem demo_taic.
Proof.
  destruct (taic_init_status_and_cleanup demo_platform demo_node_empty demo_taic)
    as (Hst & _ & Hclean).
  split; [exact Hst|]. apply Hclean. rewrite Hst. vm_compute. discriminate.
Defined.

Lemma taic_init_instance_and_log_witness :
  ∃ q msgs,
    kmem demo_taic !! 0%nat = Some q
    ∧ lq_num q = 8 ∧ gq_num q = 4
    ∧ dmesg demo_taic = [WarnGqNumDefault] ++ msgs ++ [InfoAvailable 4 8].
Proof.
  destruct (taic_init_instance_and_log demo_platform demo_node taic_boot
              (Resource 0x2000000 0x2ffffff) eq_refl eq_refl demo_maps demo_has_entries)
    as (q & msgs & Hq & _ & _ & _ & Hl & Hg & Hlog & _).
  exists q, msgs. split; [exact Hq|]. split; [exact Hl|]. split; [exact Hg | exact Hlog].
Defined.

Lemma taic_init_slots_witness :
  per_cpu_ptr (taic_uhandlers demo_taic) 0 = claimed_by 0.
Proof.
  destruct (taic_init_slots demo_platform demo_node taic_boot
              (Resource 0x2000000 0x2ffffff) ULevel 0
              eq_refl eq_refl demo_maps demo_has_entries) as [Hnamed _].
  apply Hnamed. exists 0%nat. split; [simpl; lia | exact demo_routes_0].
Defined.

Lemma taic_init_masks_witness :
  ∃ q, kmem demo_taic !! 0%nat = Some q ∧ 1%nat ∈ umask q.
Proof.
  destruct (taic_init_masks demo_platform demo_node taic_boot
              (Resource 0x2000000 0x2ffffff)
              eq_refl eq_refl demo_maps demo_has_entries) as (q & Hq & Hmask).
  exists q. split; [exact Hq|].
  apply (Hmask ULevel 1%nat). exists 2%nat. split; [simpl; lia | exact demo_routes_2].
Defined.

Lemma taic_init_heap_frame_witness :
  kmem (snd (__taic_init demo_platform demo_node demo_taic)) !! 0%nat = Some demo_priv.
Proof.
  destruct (taic_init_heap_frame demo_platform demo_node demo_taic 0 demo_priv eq_refl)
    as (Hkept & _).
  exact Hkept.
Defined.

Lemma taic_init_keeps_binding_witness :
  uhandler_bound (snd (__taic_init demo_platform demo_node demo_taic)) 0 demo_priv.
Proof.
  destruct (taic_init_keeps_binding demo_platform demo_node demo_taic 0 demo_priv
              demo_bound0) as (Hb & _).
  exact Hb.
Defined.

Lemma taic_init_then_publish_witness :
  taic_ulq_write_cpuid demo_taic 0 3 0 (sys_hw demo_sys)
  = Some (0, writeq 0 demo_reg3 (sys_hw demo_sys)).
Proof.
  assert (0 < Z.to_nat (of_irq_count demo_node))%nat as Hi by (simpl; lia).
  exact (taic_init_then_publish demo_platform demo_node taic_boot
           (Resource 0x2000000 0x2ffffff) 0 0 3 0 (sys_hw demo_sys)
           eq_refl eq_refl demo_maps demo_has_entries Hi demo_routes_0 eq_refl).
Defined.

Lemma registered_slot_invariant_witness :
  ∃ p q, priv (per_cpu_ptr (taic_shandlers demo_taic) 0) = Some p
         ∧ kmem demo_taic !! p = Some q ∧ regs q ≠ 0 ∧ 0%nat ∈ smask q.
Proof.
  destruct (registered_slot_invariant demo_taic SLevel 0 demo_taic_registered)
    as (Hpres & _).
  exact (Hpres eq_refl).
Defined.

Lemma ulq_cpuid_reg_same_slot_witness :
  ulq_cpuid_reg 0xffff000002000000 8 8 = ulq_cpuid_reg 0xffff000002000000 8 (2 ^ 32)
  ∧ 0x1000 ≤ Z.abs (ulq_cpuid_offset 8 3 - ulq_cpuid_offset 8 5).
Proof.
  assert (u8_range 8) as Hn by (unfold u8_range; lia).
  assert (u64_range 3) as H3 by (unfold u64_range, u64_mod; lia).
  assert (u64_range 5) as H5 by (unfold u64_range, u64_mod; lia).
  destruct (ulq_cpuid_reg_same_slot 0xffff000002000000 8 3 5 Hn H3 H5)
    as (_ & Hfar & _ & Halias).
  split; [exact Halias|]. apply Hfar. vm_compute. discriminate.
Defined.

Lemma taic_free_lq_keeps_owners_witness :
  ∃ h', taic_free_lq demo_taic 0 3 (sys_hw demo_sys) = Some (0, h')
    ∧ mmio h' !! demo_reg3 = Some 0.
Proof.
  assert (u8_range (lq_num demo_priv)) as Hn by (unfold u8_range; simpl; lia).
  assert (u64_range 3) as H3 by (unfold u64_range, u64_mod; lia).
  destruct (taic_free_lq_keeps_owners demo_taic 0 demo_priv 3 3 1 (sys_hw demo_sys)
              demo_bound0 Hn H3) as ((h' & Hf & _ & Hown) & _).
  exists h'. split; [exact Hf|]. exact Hown.
Defined.

Lemma taic_ulq_write_cpuid_read_back_witness :
  ∃ h1 h12,
    taic_ulq_write_cpuid demo_taic 0 3 0 (sys_hw demo_sys) = Some (0, h1)
    ∧ taic_ulq_write_cpuid demo_taic 0 5 1 h1 = Some (0, h12)
    ∧ mmio h12 !! demo_reg3 = Some 0.
Proof.
  assert (u8_range (lq_num demo_priv)) as Hn by (unfold u8_range; simpl; lia).
  assert (u64_range 3) as H3 by (unfold u64_range, u64_mod; lia).
  assert (u64_range 5) as H5 by (unfold u64_range, u64_mod; lia).
  assert (slot_number (lq_num demo_priv) 3 ≠ slot_number (lq_num demo_priv) 5) as Hne
    by (vm_compute; discriminate).
  destruct (taic_ulq_write_cpuid_read_back demo_taic 0 demo_priv 3 5 0 1 (sys_hw demo_sys)
              demo_bound0 Hn H3 H5 Hne)
    as (h1 & h2 & h12 & h21 & Hw1 & _ & Hw12 & _ & _ & _ & Hr & _).
  exists h1, h12. split; [exact Hw1|]. split; [exact Hw12 | exact Hr].
Defined.

Lemma uintr_hooks_on_unbound_core_witness :
  uintr_clear demo_taic 2 (ThreadStruct true 3) (sys_hw demo_sys) = Some (sys_hw demo_sys)
  ∧ ∃ h', uintr_set demo_taic 2 (ThreadStruct true 3) (PtRegs 1 2 3 4 0) (sys_hw demo_sys)
          = Some h'
      ∧ csrs h' 2%nat CSR_UIE = 1.
Proof.
  destruct (uintr_hooks_on_unbound_core demo_taic 2 (ThreadStruct true 3)
              (PtRegs 1 2 3 4 0) (sys_hw demo_sys) eq_refl)
    as (Hclr & h' & Hset & _ & Hen).
  split; [exact Hclr|]. exists h'. split; [exact Hset|].
  destruct (Hen eq_refl) as (_ & Huie & _). exact Huie.
Defined.

Lemma uintr_set_idempotent_witness :
  ∃ h1 h2,
    uintr_set demo_taic 0 (ThreadStruct true 3) (PtRegs 1 2 3 4 1) (sys_hw demo_sys)
    = Some h1
    ∧ uintr_set demo_taic 0 (ThreadStruct true 3) (PtRegs 1 2 3 4 1) h1 = Some h2
    ∧ mmio h2 = mmio h1.
Proof.
  destruct (uintr_set_idempotent demo_taic 0 (ThreadStruct true 3) (PtRegs 1 2 3 4 1)
              (sys_hw demo_sys) demo_taic_registered)
    as (h1 & h2 & H1 & H2 & Hm & _).
  exists h1, h2. split; [exact H1|]. split; [exact H2 | exact Hm].
Defined.

Lemma uintr_hooks_csr_frame_witness :
  ∃ hs, uintr_set demo_taic 0 (ThreadStruct false 0) (PtRegs 0 0 0 0 0)
          (HwState ∅ (λ _ _, 0xff) []) = Some hs
    ∧ Z.testbit (csrs hs 0%nat CSR_UIE) 4 = true
    ∧ csrs hs 1%nat CSR_UIE = 0xff.
Proof.
  destruct (uintr_hooks_csr_frame demo_taic 0 (ThreadStruct false 0) (PtRegs 0 0 0 0 0)
              (HwState ∅ (λ _ _, 0xff) []) demo_taic_registered)
    as (hs & hc & Hs & _ & _ & Hother & _ & Hdis).
  exists hs. split; [exact Hs|]. split.
  - destruct (Hdis eq_refl) as (_ & _ & _ & Hbits).
    destruct (Hbits 4 ltac:(lia) eq_refl) as [Huie _]. exact Huie.
  - apply (Hother 1%nat CSR_UIE). discriminate.
Defined.

Lemma sys_run_registered_witness :
  ∃ s', sys_run demo_armed [EvSet 0 2; EvEnable 0 5; EvClear 0 1 (PtRegs 0 0 0 0 0)]
        = Some s'
    ∧ ctx_thread (sys_ctx s' 0%nat) = ThreadStruct true 3.
Proof.
  destruct (sys_run_registered demo_armed
              [EvSet 0 2; EvEnable 0 5; EvClear 0 1 (PtRegs 0 0 0 0 0)]
              demo_taic_registered) as (s' & Hrun & _ & Hkeep & _).
  exists s'. split; [exact Hrun|]. exact (Hkeep 0%nat eq_refl).
Defined.

Lemma disabled_hooks_write_no_register_witness :
  ∃ s', sys_run demo_sys [EvSet 0 0; EvClear 1 1 (PtRegs 0 0 0 0 0); EvSet 1 2] = Some s'
    ∧ mmio (sys_hw s') = mmio (sys_hw demo_sys).
Proof.
  assert (Forall (λ e, is_hook (ev_tid e) e
                       ∧ is_uintr_enabled (ctx_thread (sys_ctx demo_sys (ev_tid e))) = false)
            [EvSet 0 0; EvClear 1 1 (PtRegs 0 0 0 0 0); EvSet 1 2]) as Hall
    by (repeat constructor).
  destruct (disabled_hooks_write_no_register demo_sys _ Hall)
    as (s' & evs & Hrun & Hm & _).
  exists s'. split; [exact Hrun | exact Hm].
Defined.

Lemma twoscomp_involution_witness :
  Sysmon.twoscomp (Sysmon.twoscomp 0x1234) = 0x1234
  ∧ Sysmon.twoscomp 0x8000 = 0x8000.
Proof.
  destruct (twoscomp_involution 0x1234) as (_ & _ & _ & H1).
  destruct (twoscomp_involution 0x8000) as (_ & _ & _ & H2).
  split.
  - apply H1. lia.
  - apply H2; [lia|]. by right.
Defined.

Lemma reg32_split_witness :
  Sysmon.REG32_OFFSET (32 * 5 + 9) = 4 * 5 ∧ Sysmon.REG32_SHIFT (32 * 5 + 9) = 9.
Proof.
  destruct (reg32_split 0) as (_ & _ & _ & Hwb).
  apply Hwb; lia.
Defined.

Lemma compare_strict_witness :
  Sysmon.compare 0x8001 0x0003 = false ∧ Sysmon.compare 0x0003 0x8001 = true.
Proof.
  destruct (compare_strict 0x0003 0x8001) as (_ & Hasym & _ & _ & Hneg).
  assert (Sysmon.compare 0x0003 0x8001 = true) as Hc.
  { rewrite Hneg; [reflexivity|]. right. vm_compute. discriminate. }
  split; [exact (Hasym Hc) | exact Hc].
Defined.

Lemma published_owner_from_enable_witness :
  ∃ s', sys_run demo_idle [EvEnable 0 3; EvSet 0 1; EvClear 0 1 (PtRegs 0 0 0 0 0)]
        = Some s'
    ∧ ctx_thread (sys_ctx s' 0%nat) = ThreadStruct true 3.
Proof.
  assert (ctx_exclusive demo_priv demo_idle 0 demo_reg3) as Hex
    by (intros tid' _ Hen; discriminate).
  assert (Forall (ev_bound demo_taic demo_priv)
            [EvSet 0 1; EvClear 0 1 (PtRegs 0 0 0 0 0)]) as Hb
    by (repeat constructor; exact demo_bound1).
  assert (Forall (ev_exclusive demo_priv 0 demo_reg3)
            [EvSet 0 1; EvClear 0 1 (PtRegs 0 0 0 0 0)]) as Hx
    by (repeat constructor).
  destruct (published_owner_from_enable demo_priv demo_idle 0 3
              [EvSet 0 1; EvClear 0 1 (PtRegs 0 0 0 0 0)]
              eq_refl eq_refl eq_refl Hex Hb Hx) as (s' & Hrun & Ht & _).
  exists s'. split; [exact Hrun | exact Ht].
Defined.
